(** * SyncPulse Keepers: host-authoritative game state and peer broadcast

    A shallow embedding of the game logic of [src/routes/+page.svelte] and of
    the connection store it imports ([$lib/connectionStore.js]).

    Modelling choices:
    - JavaScript numbers that hold health and node positions are exact
      rationals ([Q]); score, node ids and node timers only ever hold integers
      and are [Z].
    - The page's script variables and the store module's variables are two
      records, [Game.t] and [Store.t], gathered in [World.t] together with the
      [window] handler slots and the log of messages handed to a channel.
    - A store read ([$isHost] in the page, [get(isHost)] in the store module)
      is a field read.  The store module calls [get] without importing it;
      it is read as svelte/store's [get], which the module's closing comment
      names.
    - A timer handle is [Some d] for a timer created with period or delay [d]
      and [None] for [null]; timer callbacks are functions on the world and are
      fired by the events of [SimOp.t].
    - The PeerJS library itself (signalling, [initializePeer],
      [destroyPeer], which closes channels inside the library) and
      [console.log] are not modelled; the handlers the code installs on
      PeerJS events are. *)

From Stdlib Require Import QArith Qminmax Lqa ZArith List String Bool Lia.
Import ListNotations.
Open Scope string_scope.
Open Scope list_scope.
Open Scope Z_scope.

(** ** JavaScript objects used as maps

    [connections] maps a peer id to its DataConnection.  Property order is
    insertion order, which [for ... in] follows, so the object is an
    association list. *)

Module Obj.
Section WithValue.
Context {V : Type}.

Definition t := list (string * V).

Fixpoint get (k : string) (o : t) : option V :=
  match o with
  | [] => None
  | (k', v) :: rest => if String.eqb k' k then Some v else get k rest
  end.

(** [delete o[k]] *)
Definition delete (k : string) (o : t) : t :=
  filter (fun e => negb (String.eqb (fst e) k)) o.

(** [Object.keys(o)] *)
Definition keys (o : t) : list string := map fst o.
End WithValue.
Arguments t : clear implicits.
End Obj.

(** ** Data model *)

(** A node of the [nodes] array:
    [{ id, x, y, timer, maxTimer }]. *)
Module Node.
Record t := mk { id : Z; x : Q; y : Q; timer : Z; maxTimer : Z }.

Definition with_timer (v : Z) (n : t) : t :=
  mk (id n) (x n) (y n) v (maxTimer n).
End Node.

(** The [state] object literal built by [broadcastGameState]. *)
Module Snapshot.
Record t := mk
  { health : Q; score : Z; nodes : list Node.t;
    running : bool; gameOver : bool }.
End Snapshot.

(** Messages, by their [type] tag. *)
Inductive Msg :=
| gameStateUpdate (state : Snapshot.t)
| playerAction (action : string) (nodeId : Z)
| gameOverMsg (finalScore : Z)
| welcome (message hostId : string)
| peerDisconnect (peerId : string)
| unknownMsg (type : string).

Inductive SendResult := Sent | Throws.

(** A PeerJS DataConnection as the code uses it: the remote [peer] id, the
    [open] flag and the [send] method, which may throw. *)
Module Conn.
Record t := mk { peer : string; open : bool; send : Msg -> SendResult }.
End Conn.

(** What the [connections] store holds: the module's own
    [currentConnections] object (after [connections.set(currentConnections)])
    or a separate empty object (the initial [writable({})] and
    [connections.set({})]), which nothing ever writes to. *)
Inductive ConnRef := SharedObject | FreshEmpty.

(** Variables of the connection store module. *)
Module Store.
Record t := mk
  { isHost : bool;
    connections : ConnRef;
    currentConnections : Obj.t Conn.t;
    hostConnection : option Conn.t;
    connectionStatus : string;
    connectedPeers : list string;
    connectionError : string }.

Definition with_connections v s :=
  mk (isHost s) v (currentConnections s) (hostConnection s)
     (connectionStatus s) (connectedPeers s) (connectionError s).
Definition with_currentConnections v s :=
  mk (isHost s) (connections s) v (hostConnection s)
     (connectionStatus s) (connectedPeers s) (connectionError s).
Definition with_hostConnection v s :=
  mk (isHost s) (connections s) (currentConnections s) v
     (connectionStatus s) (connectedPeers s) (connectionError s).
Definition with_connectionStatus v s :=
  mk (isHost s) (connections s) (currentConnections s) (hostConnection s)
     v (connectedPeers s) (connectionError s).
Definition with_connectedPeers v s :=
  mk (isHost s) (connections s) (currentConnections s) (hostConnection s)
     (connectionStatus s) v (connectionError s).
Definition with_connectionError v s :=
  mk (isHost s) (connections s) (currentConnections s) (hostConnection s)
     (connectionStatus s) (connectedPeers s) v.

(** [get(connections)] *)
Definition get_connections (s : t) : Obj.t Conn.t :=
  match connections s with
  | SharedObject => currentConnections s
  | FreshEmpty => []
  end.
End Store.

(** Script variables of the page component. *)
Module Game.
Record t := mk
  { gameRunning : bool;
    pulseHealth : Q;
    score : Z;
    nodes : list Node.t;
    gameOver : bool;
    gameLoopInterval : option Z;
    nodeSpawnInterval : option Z;
    scoreInterval : option Z;
    nextNodeId : Z }.

Definition with_gameRunning v g :=
  mk v (pulseHealth g) (score g) (nodes g) (gameOver g)
     (gameLoopInterval g) (nodeSpawnInterval g) (scoreInterval g) (nextNodeId g).
Definition with_pulseHealth v g :=
  mk (gameRunning g) v (score g) (nodes g) (gameOver g)
     (gameLoopInterval g) (nodeSpawnInterval g) (scoreInterval g) (nextNodeId g).
Definition with_score v g :=
  mk (gameRunning g) (pulseHealth g) v (nodes g) (gameOver g)
     (gameLoopInterval g) (nodeSpawnInterval g) (scoreInterval g) (nextNodeId g).
Definition with_nodes v g :=
  mk (gameRunning g) (pulseHealth g) (score g) v (gameOver g)
     (gameLoopInterval g) (nodeSpawnInterval g) (scoreInterval g) (nextNodeId g).
Definition with_gameOver v g :=
  mk (gameRunning g) (pulseHealth g) (score g) (nodes g) v
     (gameLoopInterval g) (nodeSpawnInterval g) (scoreInterval g) (nextNodeId g).
Definition with_gameLoopInterval v g :=
  mk (gameRunning g) (pulseHealth g) (score g) (nodes g) (gameOver g)
     v (nodeSpawnInterval g) (scoreInterval g) (nextNodeId g).
Definition with_nodeSpawnInterval v g :=
  mk (gameRunning g) (pulseHealth g) (score g) (nodes g) (gameOver g)
     (gameLoopInterval g) v (scoreInterval g) (nextNodeId g).
Definition with_scoreInterval v g :=
  mk (gameRunning g) (pulseHealth g) (score g) (nodes g) (gameOver g)
     (gameLoopInterval g) (nodeSpawnInterval g) v (nextNodeId g).
Definition with_nextNodeId v g :=
  mk (gameRunning g) (pulseHealth g) (score g) (nodes g) (gameOver g)
     (gameLoopInterval g) (nodeSpawnInterval g) (scoreInterval g) v.
End Game.

(** The whole client: both modules' variables, whether the page has
    installed [window.handleGameData] and [window.handleGameDisconnect]
    (it does so in [onMount] and removes them in [onDestroy]), and [wire],
    the messages accepted by a channel's [send], oldest first, each with the
    peer it went to. *)
Module World.
Record t := mk
  { store : Store.t;
    game : Game.t;
    windowHandlers : bool;
    wire : list (string * Msg) }.

Definition with_store v w := mk v (game w) (windowHandlers w) (wire w).
Definition with_game v w := mk (store w) v (windowHandlers w) (wire w).
Definition with_wire v w := mk (store w) (game w) (windowHandlers w) v.

Definition map_store (f : Store.t -> Store.t) w := with_store (f (store w)) w.
Definition map_game (f : Game.t -> Game.t) w := with_game (f (game w)) w.
End World.

(** ** Game configuration *)

Definition MAX_HEALTH : Q := 100%Q.
Definition HEALTH_DRAIN_RATE : Q := 1%Q.
Definition NODE_SPAWN_INTERVAL_START : Z := 3000.
Definition NODE_SPAWN_INTERVAL_MIN : Z := 800.
Definition NODE_TIMER_DURATION : Z := 5000.
Definition HEALTH_GAIN_PER_CLICK : Q := 5%Q.
Definition HEALTH_LOSS_PER_MISS : Q := 15%Q.

(** ** The page's timers (needed by the disconnect handler below) *)

Import World.

(** [stopGameTimers] *)
Definition stopGameTimers (w : World.t) : World.t :=
  map_game (fun g =>
    Game.with_nodeSpawnInterval None
      (Game.with_scoreInterval None
        (Game.with_gameLoopInterval None g))) w.

(** ** Connection store: sending *)

(** [conn.send(data)] returned normally: the message is on the wire. *)
Definition deliver (peerId : string) (data : Msg) (w : World.t) : World.t :=
  with_wire (wire w ++ [(peerId, data)]) w.

Definition is_null {A} (o : option A) : bool :=
  match o with None => true | Some _ => false end.

(** [broadcastData], [handleDisconnect] and the page's
    [window.handleGameDisconnect] call one another: a failed send disconnects
    the peer, which tells the page, which broadcasts a [peerDisconnect].  The
    two handlers take the broadcast they call as [bcast]; the knot is tied by
    [broadcastData_fuel]. *)
Section Handlers.
Variable bcast : Msg -> World.t -> option World.t.

(** [window.handleGameDisconnect] as installed by the page. *)
Definition handleGameDisconnect_with (disconnectedPeerId : string)
    (w : World.t) : option World.t :=
  if negb (Store.isHost (store w)) && is_null (Store.hostConnection (store w))
  then
    let w1 := map_game (Game.with_gameOver true) w in
    let w2 := map_game (Game.with_gameRunning false) w1 in
    let w3 := map_store (Store.with_connectionError
                           "Lost connection to the host.") w2 in
    Some (stopGameTimers w3)
  else if Store.isHost (store w)
  then bcast (peerDisconnect disconnectedPeerId) w
  else Some w.

Definition call_handleGameDisconnect (peerId : string) (w : World.t)
    : option World.t :=
  if windowHandlers w then handleGameDisconnect_with peerId w else Some w.

(** [handleDisconnect] *)
Definition handleDisconnect_with (peerId : string) (w : World.t)
    : option World.t :=
  if Store.isHost (store w) then
    let cur := Obj.delete peerId (Store.currentConnections (store w)) in
    let w1 := map_store (Store.with_currentConnections cur) w in
    let w2 := map_store (Store.with_connections SharedObject) w1 in
    let w3 := map_store (Store.with_connectedPeers (Obj.keys cur)) w2 in
    call_handleGameDisconnect peerId w3
  else
    let w1 := map_store (Store.with_hostConnection None) w in
    let w2 := map_store (Store.with_connectionStatus "disconnected") w1 in
    let w3 := map_store (Store.with_connectionError
                           "Disconnected from host.") w2 in
    call_handleGameDisconnect peerId w3.

(** The [for (const peerId in currentConns)] loop of [broadcastData] over
    the keys still to visit.  [currentConns] is the object the store held
    when the loop started; when that object has keys it is
    [currentConnections] itself, so a key deleted by [handleDisconnect]
    before its turn is skipped, as [for ... in] does. *)
Fixpoint broadcast_loop (data : Msg) (todo : list string) (w : World.t)
    : option World.t :=
  match todo with
  | [] => Some w
  | peerId :: rest =>
      match Obj.get peerId (Store.get_connections (store w)) with
      | None => broadcast_loop data rest w
      | Some c =>
          if Conn.open c then
            match Conn.send c data with
            | Sent => broadcast_loop data rest (deliver peerId data w)
            | Throws =>
                match handleDisconnect_with peerId w with
                | Some w' => broadcast_loop data rest w'
                | None => None
                end
            end
          else broadcast_loop data rest w
      end
  end.
End Handlers.

(** [broadcastData] with a bound on the depth of nested broadcasts; [None]
    when the bound is hit. *)
Fixpoint broadcastData_fuel (fuel : nat) (data : Msg) (w : World.t)
    : option World.t :=
  match fuel with
  | O => None
  | S fuel' =>
      if negb (Store.isHost (store w)) then Some w
      else broadcast_loop (broadcastData_fuel fuel') data
             (Obj.keys (Store.get_connections (store w))) w
  end.

(** Every nested broadcast starts after a key was deleted, so the depth is at
    most the number of connections (see [broadcastData_fuel_enough]). *)
Definition broadcast_depth (w : World.t) : nat :=
  S (List.length (Store.get_connections (store w))).

(** [broadcastData] *)
Definition broadcastData (data : Msg) (w : World.t) : World.t :=
  match broadcastData_fuel (broadcast_depth w) data w with
  | Some w' => w'
  | None => w
  end.

(** [handleDisconnect] on its own, as the channel's [close] and [error]
    events call it. *)
Definition handleDisconnect (peerId : string) (w : World.t) : World.t :=
  match handleDisconnect_with (fun d v => Some (broadcastData d v)) peerId w with
  | Some w' => w'
  | None => w
  end.

(** ** The page: host actions *)

(** The few JavaScript values the start guard compares. *)
Inductive JsVal := JsBool (b : bool) | JsNum (n : Z) | JsObject.

Definition truthy (v : JsVal) : bool :=
  match v with
  | JsBool b => b
  | JsNum n => negb (n =? 0)
  | JsObject => true
  end.

(** [!v] *)
Definition js_not (v : JsVal) : bool := negb (truthy v).

(** [a === b]: values of different types are never strictly equal. *)
Definition strict_eq (a b : JsVal) : bool :=
  match a, b with
  | JsBool x, JsBool y => Bool.eqb x y
  | JsNum x, JsNum y => x =? y
  | _, _ => false
  end.

(** [broadcastGameState] *)
Definition broadcastGameState (w : World.t) : World.t :=
  if negb (Store.isHost (store w)) then w
  else
    let g := game w in
    let state := Snapshot.mk (Game.pulseHealth g) (Game.score g) (Game.nodes g)
                             (Game.gameRunning g) (Game.gameOver g) in
    broadcastData (gameStateUpdate state) w.

(** [broadcastGameOver] *)
Definition broadcastGameOver (w : World.t) : World.t :=
  if negb (Store.isHost (store w)) then w
  else
    let w1 := stopGameTimers w in
    broadcastData (gameOverMsg (Game.score (game w1))) w1.

(** [scheduleNextSpawn], local to [startGameTimers] *)
Definition scheduleNextSpawn (w : World.t) : World.t :=
  let g := game w in
  if negb (Game.gameRunning g) || Game.gameOver g then w
  else
    let currentInterval :=
      Z.max NODE_SPAWN_INTERVAL_MIN
            (NODE_SPAWN_INTERVAL_START - Game.score g * 10) in
    map_game (Game.with_nodeSpawnInterval (Some currentInterval)) w.

(** [startGameTimers]: the three timers are created here; their callbacks are
    [scoreCallback], [gameLoopCallback] and [spawnCallback] below. *)
Definition startGameTimers (w : World.t) : World.t :=
  let w1 := stopGameTimers w in
  let w2 := map_game (Game.with_scoreInterval (Some 1000)) w1 in
  let w3 := map_game (Game.with_gameLoopInterval (Some 100)) w2 in
  scheduleNextSpawn w3.

(** [startGameHost] *)
Definition startGameHost (w : World.t) : World.t :=
  let conns := Store.get_connections (store w) in
  let len := JsNum (Z.of_nat (List.length (Obj.keys conns))) in
  let notHost := negb (Store.isHost (store w)) in
  if (notHost || Game.gameRunning (game w) || js_not JsObject
      || strict_eq len (JsNum 0))
     && (strict_eq (JsBool (js_not len)) (JsNum 0) && notHost)
  then map_store (Store.with_connectionError "Wait for players to join!") w
  else
    let w1 := map_game (Game.with_gameOver false) w in
    let w2 := map_game (Game.with_pulseHealth MAX_HEALTH) w1 in
    let w3 := map_game (Game.with_score 0) w2 in
    let w4 := map_game (Game.with_nodes []) w3 in
    let w5 := map_game (Game.with_nextNodeId 0) w4 in
    let w6 := map_game (Game.with_gameRunning true) w5 in
    broadcastGameState (startGameTimers w6).

(** ** The page: game logic *)

(** Callback of [scoreInterval]. *)
Definition scoreCallback (w : World.t) : World.t :=
  let g := game w in
  if negb (Game.gameRunning g) || Game.gameOver g then w
  else map_game (Game.with_score (Game.score g + 1)) w.

(** The arrow function mapped over [nodes] by the game loop, threading the
    two variables it assigns, [pulseHealth] and [missed]; [None] is the
    [null] that marks a missed node. *)
Fixpoint mapNodes (ns : list Node.t) (health : Q) (missed : bool)
    : list (option Node.t) * Q * bool :=
  match ns with
  | [] => ([], health, missed)
  | node :: rest =>
      let node' := Node.with_timer (Node.timer node - 100) node in
      if Node.timer node' <=? 0 then
        let health1 := (health - HEALTH_LOSS_PER_MISS)%Q in
        let health2 := Qmax 0 health1 in
        let '(out, h, m) := mapNodes rest health2 true in
        (None :: out, h, m)
      else
        let '(out, h, m) := mapNodes rest health missed in
        (Some node' :: out, h, m)
  end.

(** [.filter(Boolean)] on the mapped array. *)
Fixpoint filterBoolean {A} (l : list (option A)) : list A :=
  match l with
  | [] => []
  | Some a :: rest => a :: filterBoolean rest
  | None :: rest => filterBoolean rest
  end.

(** Callback of [gameLoopInterval]. *)
Definition gameLoopCallback (w : World.t) : World.t :=
  let g := game w in
  if negb (Game.gameRunning g) || Game.gameOver g then w
  else
    let health1 :=
      (Game.pulseHealth g - HEALTH_DRAIN_RATE / (1000 / 100))%Q in
    let health2 := Qmax 0 health1 in
    let '(mapped, health3, missed) := mapNodes (Game.nodes g) health2 false in
    let w1 := map_game (Game.with_pulseHealth health3) w in
    let w2 := map_game (Game.with_nodes (filterBoolean mapped)) w1 in
    if Qle_bool health3 0 then
      let w3 := map_game (Game.with_gameOver true) w2 in
      let w4 := map_game (Game.with_gameRunning false) w3 in
      broadcastGameOver (stopGameTimers w4)
    else if missed || (Z.rem (Game.score g) 5 =? 0)
    then broadcastGameState w2
    else w2.

(** [spawnNode]; [rx] and [ry] are the two draws of [Math.random()]. *)
Definition spawnNode (rx ry : Q) (w : World.t) : World.t :=
  let g := game w in
  if negb (Store.isHost (store w)) || negb (Game.gameRunning g)
     || Game.gameOver g
  then w
  else
    let newNode := Node.mk (Game.nextNodeId g)
                           (rx * 80 + 10)%Q (ry * 80 + 10)%Q
                           NODE_TIMER_DURATION NODE_TIMER_DURATION in
    let w1 := map_game (Game.with_nextNodeId (Game.nextNodeId g + 1)) w in
    map_game (Game.with_nodes (Game.nodes g ++ [newNode])) w1.

(** Callback of the [nodeSpawnInterval] timeout. *)
Definition spawnCallback (rx ry : Q) (w : World.t) : World.t :=
  scheduleNextSpawn (spawnNode rx ry w).

(** [Array.prototype.findIndex], [-1] when nothing matches. *)
Fixpoint findIndex {A} (p : A -> bool) (l : list A) : Z :=
  match l with
  | [] => -1
  | a :: rest =>
      if p a then 0
      else let i := findIndex p rest in if i =? -1 then -1 else i + 1
  end.

(** [handleNodeClick] *)
Definition handleNodeClick (nodeId : Z) (clickerPeerId : string)
    (w : World.t) : World.t :=
  let g := game w in
  if negb (Store.isHost (store w)) || negb (Game.gameRunning g)
     || Game.gameOver g
  then w
  else
    let nodeIndex := findIndex (fun n => Node.id n =? nodeId) (Game.nodes g) in
    if negb (nodeIndex =? -1) then
      let health1 := (Game.pulseHealth g + HEALTH_GAIN_PER_CLICK)%Q in
      let w1 := map_game (Game.with_pulseHealth (Qmin MAX_HEALTH health1)) w in
      let w2 := map_game (Game.with_nodes
                  (filter (fun n => negb (Node.id n =? nodeId)) (Game.nodes g)))
                  w1 in
      broadcastGameState w2
    else w.

(** ** The page: incoming data *)

(** [window.handleGameData] *)
Definition handleGameData (data : Msg) (senderPeerId : string) (w : World.t)
    : World.t :=
  let host := Store.isHost (store w) in
  match data with
  | gameStateUpdate state =>
      if negb host then
        match Store.hostConnection (store w) with
        | Some hc =>
            if String.eqb senderPeerId (Conn.peer hc) then
              let w1 := map_game (Game.with_pulseHealth (Snapshot.health state)) w in
              let w2 := map_game (Game.with_score (Snapshot.score state)) w1 in
              let w3 := map_game (Game.with_nodes (Snapshot.nodes state)) w2 in
              let w4 := map_game (Game.with_gameRunning (Snapshot.running state)) w3 in
              map_game (Game.with_gameOver (Snapshot.gameOver state)) w4
            else w
        | None => w
        end
      else w
  | playerAction action nodeId =>
      if host then
        if String.eqb action "clickNode"
        then handleNodeClick nodeId senderPeerId w
        else w
      else w
  | gameOverMsg finalScore =>
      if negb host then
        let w1 := map_game (Game.with_gameOver true) w in
        let w2 := map_game (Game.with_gameRunning false) w1 in
        let w3 := stopGameTimers w2 in
        if truthy (JsNum finalScore)
        then map_game (Game.with_score finalScore) w3
        else w3
      else w
  | welcome _ _ => w
  | peerDisconnect _ => w
  | unknownMsg _ => w
  end.

(** ** Simulation events on the host

    What can happen to a started game: a timer fires, a click reaches
    [handleNodeClick] (the host's own or a [playerAction] from a peer), or the
    start button is pressed. *)
Module SimOp.
Inductive t :=
| Tick
| ScoreTick
| Spawn (rx ry : Q)
| Click (nodeId : Z) (clickerPeerId : string)
| Start.
End SimOp.

Definition step (e : SimOp.t) (w : World.t) : World.t :=
  match e with
  | SimOp.Tick => gameLoopCallback w
  | SimOp.ScoreTick => scoreCallback w
  | SimOp.Spawn rx ry => spawnCallback rx ry w
  | SimOp.Click nodeId clicker => handleNodeClick nodeId clicker w
  | SimOp.Start => startGameHost w
  end.

(** The events of [es] in order, oldest first. *)
Definition run (es : list SimOp.t) (w : World.t) : World.t :=
  fold_left (fun v e => step e v) es w.

(** ** Connection store: joining, registering, sending to the host *)

(** [o[k] = v]: an existing key keeps its place, a new key goes last. *)
Fixpoint obj_set {V} (k : string) (v : V) (o : Obj.t V) : Obj.t V :=
  match o with
  | [] => [(k, v)]
  | (k', v') :: rest =>
      if String.eqb k' k then (k, v) :: rest
      else (k', v') :: obj_set k v rest
  end.

(** The state change of [setupConnectionHandlers]; the [conn.on] handlers
    it installs are [handleIncomingData], [handleDisconnect] and
    [onConnectionError]. *)
Definition setupConnectionHandlers (conn : Conn.t) (w : World.t) : World.t :=
  if Store.isHost (store w) then
    let cur := obj_set (Conn.peer conn) conn
                       (Store.currentConnections (store w)) in
    let w1 := map_store (Store.with_currentConnections cur) w in
    let w2 := map_store (Store.with_connections SharedObject) w1 in
    map_store (Store.with_connectedPeers (Obj.keys cur)) w2
  else w.

Definition with_isHost (v : bool) (s : Store.t) : Store.t :=
  Store.mk v (Store.connections s) (Store.currentConnections s)
           (Store.hostConnection s) (Store.connectionStatus s)
           (Store.connectedPeers s) (Store.connectionError s).


(** [connectToHost].  [peerReady] is [peerInstance && !peerInstance.destroyed]
    and [conn] is what [peerInstance.connect(hostId, ...)] returns. *)
Definition connectToHost (peerReady : bool) (hostId : string) (conn : Conn.t)
    (w : World.t) : World.t :=
  if negb peerReady then
    map_store (Store.with_connectionError "Cannot connect: PeerJS not ready.") w
  else if String.eqb hostId "" then
    map_store (Store.with_connectionError "Please enter a Host Game ID.") w
  else
    let w1 := map_store (Store.with_connectionStatus "connecting") w in
    let w2 := map_store (with_isHost false) w1 in
    let w3 := map_store (Store.with_hostConnection (Some conn)) w2 in
    setupConnectionHandlers conn w3.

(** [joinGame]; [gameIdToJoin] is the value of the store of that name. *)
Definition joinGame (peerReady : bool) (gameIdToJoin : string) (conn : Conn.t)
    (w : World.t) : World.t :=
  if negb (String.eqb gameIdToJoin "") then
    connectToHost peerReady gameIdToJoin conn w
  else
    map_store (Store.with_connectionError "Please enter a Game ID to join.") w.


(** [sendDataToHost] *)
Definition sendDataToHost (data : Msg) (w : World.t) : World.t :=
  match Store.hostConnection (store w) with
  | None => w
  | Some hostConn =>
      if Store.isHost (store w) || negb (Conn.open hostConn) then w
      else
        match Conn.send hostConn data with
        | Sent => deliver (Conn.peer hostConn) data w
        | Throws =>
            handleDisconnect (Conn.peer hostConn)
              (map_store (Store.with_connectionError
                            "Failed to send data to host.") w)
        end
  end.

(** [handleIncomingData] *)
Definition handleIncomingData (data : Msg) (senderPeerId : string)
    (w : World.t) : World.t :=
  if windowHandlers w then handleGameData data senderPeerId w else w.

(** ** The page: input, connection loss, colours *)

(** [onNodeInteraction]; [ownPeerId] is the value of the [peerId] store. *)
Definition onNodeInteraction (ownPeerId : string) (nodeId : Z) (w : World.t)
    : World.t :=
  let g := game w in
  if negb (Game.gameRunning g) || Game.gameOver g then w
  else if Store.isHost (store w) then handleNodeClick nodeId ownPeerId w
  else sendDataToHost (playerAction "clickNode" nodeId) w.

(** The reactive block on [$connectionStatus]. *)
Definition connectionLost (w : World.t) : World.t :=
  let status := Store.connectionStatus (store w) in
  if String.eqb status "disconnected" || String.eqb status "error" then
    if Game.gameRunning (game w) || Game.gameOver (game w) then
      let w1 := stopGameTimers w in
      let w2 := map_game (Game.with_gameRunning false) w1 in
      map_game (Game.with_gameOver true) w2
    else w
  else w.

(** [getPulseColor] *)
Definition getPulseColor (health : Q) : string :=
  let percentage := (health / MAX_HEALTH)%Q in
  if negb (Qle_bool percentage 0.7) then "lime"
  else if negb (Qle_bool percentage 0.4) then "orange"
  else "red".

(** ** Everything that can happen to a client

    Timer callbacks, user input and channel events, in one event type. *)
Module Event.
Inductive t :=
| Sim (e : SimOp.t)
| Mounted
| Interact (ownPeerId : string) (nodeId : Z)
| Join (peerReady : bool) (gameIdToJoin : string) (conn : Conn.t)
| Incoming (conn : Conn.t)
| Data (data : Msg) (senderPeerId : string)
| Closed (peerId : string)
| Errored (message peerId : string)
| StatusChanged.
End Event.



(** The world when the page has loaded: the initial values of the store
    module's and the page's variables. *)
Definition initial_world : World.t :=
  World.mk (Store.mk false FreshEmpty [] None "disconnected" [] "")
           (Game.mk false 100 0 [] false None None None 0)
           false [].

(** * Vocabulary of the properties

    Names for the worlds, node lists and health values that the statements
    below talk about, and the worlds of the worked examples. *)

(** The store writes of [handleDisconnect] on the host. *)
Definition dropPeer (peerId : string) (w : World.t) : World.t :=
  let cur := Obj.delete peerId (Store.currentConnections (store w)) in
  map_store (Store.with_connectedPeers (Obj.keys cur))
    (map_store (Store.with_connections SharedObject)
      (map_store (Store.with_currentConnections cur) w)).

(** One effect of a broadcast on the host: a message accepted by an open
    channel, or the removal of a peer whose [send] threw. *)
Inductive effect : World.t -> World.t -> Prop :=
| effect_deliver peerId c data w :
    Store.isHost (store w) = true ->
    Obj.get peerId (Store.get_connections (store w)) = Some c ->
    Conn.open c = true ->
    Conn.send c data = Sent ->
    effect w (deliver peerId data w)
| effect_drop peerId c data w :
    Store.isHost (store w) = true ->
    Obj.get peerId (Store.get_connections (store w)) = Some c ->
    Conn.open c = true ->
    Conn.send c data = Throws ->
    effect w (dropPeer peerId w).

(** A sequence of effects. *)
Inductive effects : World.t -> World.t -> Prop :=
| effects_nil w : effects w w
| effects_cons w1 w2 w3 : effect w1 w2 -> effects w2 w3 -> effects w1 w3.

(** The connections object the store holds, [get(connections)]. *)
Abbreviation conns w := (Store.get_connections (store w)).


(** A node whose timer is at or below zero after this tick. *)
Definition expires (n : Node.t) : bool := Node.timer n - 100 <=? 0.

(** A node with its timer lowered by the tick period. *)
Definition tickNode (n : Node.t) : Node.t :=
  Node.with_timer (Node.timer n - 100) n.

(** One miss: the penalty, then the clamp at zero. *)
Definition miss (health : Q) : Q := Qmax 0 (health - HEALTH_LOSS_PER_MISS).

(** The drain of one tick, then the clamp at zero. *)
Definition drain (health : Q) : Q :=
  Qmax 0 (health - HEALTH_DRAIN_RATE / (1000 / 100)).

(** Health within [[0, MAX_HEALTH]]. *)
Definition health_ok (h : Q) : Prop := (0 <= h /\ h <= MAX_HEALTH)%Q.

(** Health and nodes after the drain and the node pass of one tick. *)
Definition tickHealth (g : Game.t) : Q :=
  Nat.iter (List.length (filter expires (Game.nodes g))) miss
           (drain (Game.pulseHealth g)).

Definition tickNodes (g : Game.t) : list Node.t :=
  map tickNode (filter (fun n => negb (expires n)) (Game.nodes g)).

(** The nodes left after a click on [nodeId]. *)
Definition withoutNode (nodeId : Z) (ns : list Node.t) : list Node.t :=
  filter (fun n => negb (Node.id n =? nodeId)) ns.

Definition hasNode (nodeId : Z) (ns : list Node.t) : bool :=
  existsb (fun n => Node.id n =? nodeId) ns.

(** A click that hits: the world handed to [broadcastGameState]. *)
Definition clicked (nodeId : Z) (w : World.t) : World.t :=
  map_game (fun g =>
    Game.with_nodes (withoutNode nodeId (Game.nodes g))
      (Game.with_pulseHealth
         (Qmin MAX_HEALTH (Game.pulseHealth g + HEALTH_GAIN_PER_CLICK)) g)) w.

(** What a broadcast of [data] may put on the wire: [data] itself, and the
    page's [peerDisconnect] notices for the peers it dropped. *)
Definition relays (data : Msg) (e : string * Msg) : Prop :=
  snd e = data \/ exists peerId, snd e = peerDisconnect peerId.

(** A snapshot on the wire shows a health within bounds. *)
Definition snapshot_ok (e : string * Msg) : Prop :=
  match snd e with
  | gameStateUpdate state => health_ok (Snapshot.health state)
  | _ => True
  end.

(** The wire of [w'] is that of [w] followed by messages whose snapshots
    are within bounds. *)
Definition wire_grows_ok (w w' : World.t) : Prop :=
  exists l, wire w' = wire w ++ l /\ Forall snapshot_ok l.

(** The world after the drain and the node pass of a tick that does not end
    the game. *)
Definition ticked (w : World.t) : World.t :=
  map_game (fun g =>
    Game.with_nodes (tickNodes g)
      (Game.with_pulseHealth (tickHealth g) g)) w.

(** The world of the tick that ends the game, before the terminal
    broadcast. *)
Definition ended (w : World.t) : World.t :=
  stopGameTimers
    (map_game (fun g =>
       Game.with_gameRunning false
         (Game.with_gameOver true
            (Game.with_nodes (tickNodes g)
               (Game.with_pulseHealth (tickHealth g) g)))) w).

(** Node ids are distinct and below the next id to hand out. *)
Definition ids_ok (g : Game.t) : Prop :=
  NoDup (map Node.id (Game.nodes g)) /\
  Forall (fun i => i < Game.nextNodeId g) (map Node.id (Game.nodes g)).


(** An open channel that accepts every message, and one that throws on
    every [send]. *)
Definition steady (peer : string) : Conn.t := Conn.mk peer true (fun _ => Sent).

Definition broken (peer : string) : Conn.t :=
  Conn.mk peer true (fun _ => Throws).

(** A host with three open peers; the channel to ["b"] throws on [send]. *)
Definition ex_store : Store.t :=
  Store.mk true SharedObject
           [("a", steady "a"); ("b", broken "b"); ("c", steady "c")]
           None "connected" ["a"; "b"; "c"] "".

Definition ex_nodes : list Node.t :=
  [Node.mk 0 20 30 100 5000; Node.mk 1 40 60 4000 5000].

(** A running game at health 50 and score 7. *)
Definition ex_host : World.t :=
  World.mk ex_store
    (Game.mk true 50 7 ex_nodes false (Some 100) (Some 2930) (Some 1000) 2)
    true [].


(** A host that was never joined, with a game further on. *)
Definition ex_solo : World.t :=
  World.mk (Store.mk true FreshEmpty [] None "ready" [] "")
    (Game.mk true 80 300 [] false (Some 100) (Some 800) (Some 1000) 40)
    true [].

(** A client bound to host ["host-b"], mirroring a running game. *)
Definition ex_client : World.t :=
  World.mk (Store.mk false FreshEmpty [] (Some (steady "host-b"))
                     "connected" [] "")
    (Game.mk true 80 3 ex_nodes false None None None 0)
    true [].






(** Timers are armed exactly while the game runs, and running excludes
    over. *)
Definition phase_ok (g : Game.t) : Prop :=
  0 <= Game.score g /\
  if Game.gameRunning g then
    Game.gameOver g = false /\
    Game.gameLoopInterval g = Some 100 /\
    Game.scoreInterval g = Some 1000 /\
    exists d, Game.nodeSpawnInterval g = Some d /\
              NODE_SPAWN_INTERVAL_MIN <= d <= NODE_SPAWN_INTERVAL_START
  else
    Game.gameOver g = true /\
    Game.gameLoopInterval g = None /\
    Game.scoreInterval g = None /\
    Game.nodeSpawnInterval g = None.

(** A live node: a positive timer, a whole number of ticks, never above the
    lifetime it started with. *)
Definition node_ok (n : Node.t) : Prop :=
  0 < Node.timer n <= NODE_TIMER_DURATION /\
  Node.maxTimer n = NODE_TIMER_DURATION /\
  exists k, Node.timer n = 100 * k.

(** A node away from the edges of the board. *)
Definition placed (n : Node.t) : Prop :=
  (10 <= Node.x n /\ Node.x n < 90 /\ 10 <= Node.y n /\ Node.y n < 90)%Q.

(** A [Math.random()] draw. *)
Definition unit_draw (r : Q) : Prop := (0 <= r /\ r < 1)%Q.

Definition draws_ok (e : SimOp.t) : Prop :=
  match e with
  | SimOp.Spawn rx ry => unit_draw rx /\ unit_draw ry
  | _ => True
  end.

(** The node [spawnNode] creates from the draws [rx] and [ry]. *)
Definition spawned (g : Game.t) (rx ry : Q) : Node.t :=
  Node.mk (Game.nextNodeId g) (rx * 80 + 10)%Q (ry * 80 + 10)%Q
          NODE_TIMER_DURATION NODE_TIMER_DURATION.

(** The delay [scheduleNextSpawn] computes. *)
Definition spawnDelay (g : Game.t) : Z :=
  Z.max NODE_SPAWN_INTERVAL_MIN
        (NODE_SPAWN_INTERVAL_START - Game.score g * 10).

(** The game a freshly started game begins with. *)
Definition freshGame : Game.t :=
  Game.mk true MAX_HEALTH 0 [] false (Some 100) (Some 3000) (Some 1000) 0.

(** What a simulation event can do to the game variables, on a host or
    not. *)
Inductive game_move (host : bool) (g : Game.t) : SimOp.t -> Game.t -> Prop :=
| move_none e : game_move host g e g
| move_end :
    Game.gameRunning g = true -> Game.gameOver g = false ->
    Qle_bool (tickHealth g) 0 = true ->
    game_move host g SimOp.Tick
      (Game.mk false (tickHealth g) (Game.score g) (tickNodes g) true
               None None None (Game.nextNodeId g))
| move_tick :
    Game.gameRunning g = true -> Game.gameOver g = false ->
    Qle_bool (tickHealth g) 0 = false ->
    game_move host g SimOp.Tick
      (Game.with_nodes (tickNodes g) (Game.with_pulseHealth (tickHealth g) g))
| move_score :
    Game.gameRunning g = true -> Game.gameOver g = false ->
    game_move host g SimOp.ScoreTick (Game.with_score (Game.score g + 1) g)
| move_spawn rx ry :
    Game.gameRunning g = true -> Game.gameOver g = false -> host = true ->
    game_move host g (SimOp.Spawn rx ry)
      (Game.with_nodeSpawnInterval (Some (spawnDelay g))
         (Game.with_nodes (Game.nodes g ++ [spawned g rx ry])
            (Game.with_nextNodeId (Game.nextNodeId g + 1) g)))
| move_reschedule rx ry :
    Game.gameRunning g = true -> Game.gameOver g = false -> host = false ->
    game_move host g (SimOp.Spawn rx ry)
      (Game.with_nodeSpawnInterval (Some (spawnDelay g)) g)
| move_click nodeId clicker :
    Game.gameRunning g = true -> Game.gameOver g = false -> host = true ->
    game_move host g (SimOp.Click nodeId clicker)
      (Game.with_nodes (withoutNode nodeId (Game.nodes g))
         (Game.with_pulseHealth
            (Qmin MAX_HEALTH (Game.pulseHealth g + HEALTH_GAIN_PER_CLICK)) g))
| move_start : game_move host g SimOp.Start freshGame.

Definition is_scoreTick (e : SimOp.t) : bool :=
  match e with SimOp.ScoreTick => true | _ => false end.

Definition is_spawn (e : SimOp.t) : bool :=
  match e with SimOp.Spawn _ _ => true | _ => false end.



(** * Properties *)

(** ** Objects *)

Module ObjFacts.
Section WithValue.
Context {V : Type}.
Implicit Types (o : Obj.t V) (k : string) (v : V).





Lemma delete_length_le k o :
  (List.length (Obj.delete k o) <= List.length o)%nat.
Proof.
  unfold Obj.delete.
  induction o as [|[k' v'] o IH]; cbn; [lia|].
  destruct (String.eqb k' k); cbn; lia.
Qed.

Lemma delete_length_lt k o v :
  Obj.get k o = Some v ->
  (List.length (Obj.delete k o) < List.length o)%nat.
Proof.
  pose proof (delete_length_le k) as Hle. unfold Obj.delete in *.
  induction o as [|[k' v'] o IH]; cbn; [discriminate|].
  destruct (String.eqb k' k) eqn:E; cbn.
  - intros _. specialize (Hle o). lia.
  - intros H. apply IH in H. lia.
Qed.
End WithValue.
End ObjFacts.

(** ** What a broadcast can do to the world

    A broadcast is a sequence of [effect]s. *)

Lemma effects_trans w1 w2 w3 : effects w1 w2 -> effects w2 w3 -> effects w1 w3.
Proof.
  induction 1 as [|a b c Hab Hbc IH]; [trivial|].
  intros Hc. eapply effects_cons; [exact Hab|auto].
Qed.

Lemma effects_one w1 w2 : effect w1 w2 -> effects w1 w2.
Proof. intros H. eapply effects_cons; [exact H|apply effects_nil]. Qed.

(** A relation that holds along every effect holds across a broadcast. *)
Lemma effects_ind_rel (R : World.t -> World.t -> Prop) :
  (forall w, R w w) ->
  (forall a b c, R a b -> R b c -> R a c) ->
  (forall a b, effect a b -> R a b) ->
  forall w w', effects w w' -> R w w'.
Proof.
  intros Hrefl Htrans Hstep w w' H.
  induction H as [|a b c Hab Hbc IH]; [apply Hrefl|].
  eapply Htrans; [apply Hstep; exact Hab|exact IH].
Qed.

Lemma effect_isHost a b :
  effect a b -> Store.isHost (store b) = Store.isHost (store a).
Proof. destruct 1; reflexivity. Qed.

Lemma effects_isHost a b :
  effects a b -> Store.isHost (store b) = Store.isHost (store a).
Proof.
  induction 1 as [|x y z Hxy Hyz IH]; [reflexivity|].
  rewrite IH. apply effect_isHost; assumption.
Qed.

Section BroadcastEffects.
Variable bcast : Msg -> World.t -> option World.t.
Hypothesis bcast_effects :
  forall data w w', bcast data w = Some w' -> effects w w'.

Lemma handleDisconnect_host_effects peerId c data w w' :
  Store.isHost (store w) = true ->
  Obj.get peerId (Store.get_connections (store w)) = Some c ->
  Conn.open c = true ->
  Conn.send c data = Throws ->
  handleDisconnect_with bcast peerId w = Some w' ->
  effects (dropPeer peerId w) w' /\ effects w w'.
Proof.
  intros Hhost Hget Hopen Hsend Hres.
  assert (Hdrop : effect w (dropPeer peerId w))
    by (eapply effect_drop; eassumption).
  unfold handleDisconnect_with in Hres. rewrite Hhost in Hres.
  fold (dropPeer peerId w) in Hres.
  unfold call_handleGameDisconnect, handleGameDisconnect_with in Hres.
  replace (Store.isHost (store (dropPeer peerId w))) with true in Hres
    by (symmetry; exact Hhost).
  cbn [negb andb] in Hres.
  destruct (windowHandlers (dropPeer peerId w)).
  - apply bcast_effects in Hres. split; [exact Hres|].
    eapply effects_cons; eassumption.
  - injection Hres as <-. split; [apply effects_nil|].
    apply effects_one; exact Hdrop.
Qed.

Lemma broadcast_loop_effects data todo :
  forall w w',
    Store.isHost (store w) = true ->
    broadcast_loop bcast data todo w = Some w' ->
    effects w w'.
Proof.
  induction todo as [|peerId rest IH]; intros w w' Hhost Hres; cbn in Hres.
  - injection Hres as <-. apply effects_nil.
  - destruct (Obj.get peerId (Store.get_connections (store w)))
      as [c|] eqn:Hget; [|eauto].
    destruct (Conn.open c) eqn:Hopen; [|eauto].
    destruct (Conn.send c data) eqn:Hsend.
    + eapply effects_cons.
      * eapply effect_deliver; eassumption.
      * apply IH; [exact Hhost|exact Hres].
    + destruct (handleDisconnect_with bcast peerId w) as [w1|] eqn:Hd;
        [|discriminate].
      destruct (handleDisconnect_host_effects _ _ _ _ _ Hhost Hget Hopen Hsend Hd)
        as [_ H1].
      eapply effects_trans; [exact H1|].
      apply IH; [|exact Hres].
      rewrite (effects_isHost _ _ H1). exact Hhost.
Qed.
End BroadcastEffects.

Lemma broadcastData_fuel_effects fuel :
  forall data w w', broadcastData_fuel fuel data w = Some w' -> effects w w'.
Proof.
  induction fuel as [|fuel IH]; intros data w w' Hres; cbn in Hres;
    [discriminate|].
  destruct (Store.isHost (store w)) eqn:Hhost; cbn in Hres.
  - eapply broadcast_loop_effects; eauto.
  - injection Hres as <-. apply effects_nil.
Qed.

(** ** Invariants of a broadcast *)

Lemma get_connections_shared s peerId c :
  Obj.get peerId (Store.get_connections s) = Some c ->
  Store.get_connections s = Store.currentConnections s.
Proof.
  unfold Store.get_connections. destruct (Store.connections s);
    [reflexivity|discriminate].
Qed.

Lemma conns_dropPeer peerId c w :
  Obj.get peerId (conns w) = Some c ->
  conns (dropPeer peerId w) = Obj.delete peerId (conns w).
Proof.
  intros H. rewrite (get_connections_shared _ _ _ H). reflexivity.
Qed.

Lemma effects_frame a b :
  effects a b -> game b = game a /\ windowHandlers b = windowHandlers a.
Proof.
  apply (effects_ind_rel
           (fun a b => game b = game a /\ windowHandlers b = windowHandlers a)).
  - auto.
  - intros x y z [-> ->] [-> ->]. auto.
  - destruct 1; auto.
Qed.






Lemma effects_length a b :
  effects a b -> (List.length (conns b) <= List.length (conns a))%nat.
Proof.
  apply (effects_ind_rel (fun a b =>
    (List.length (conns b) <= List.length (conns a))%nat)).
  - auto.
  - intros; lia.
  - destruct 1 as [p c0 d w _ Hget _ _|p c0 d w _ Hget _ _].
    + apply Nat.le_refl.
    + rewrite (conns_dropPeer _ _ _ Hget). apply ObjFacts.delete_length_le.
Qed.

(** ** A broadcast returns

    The depth bound of [broadcastData] is never hit. *)

Lemma broadcast_loop_returns fuel data
    (IH : forall d w, (List.length (conns w) < fuel)%nat ->
                      broadcastData_fuel fuel d w <> None) :
  forall todo w,
    Store.isHost (store w) = true ->
    (List.length (conns w) <= fuel)%nat ->
    broadcast_loop (broadcastData_fuel fuel) data todo w <> None.
Proof.
  induction todo as [|peerId rest IHl]; intros w Hhost Hlen; cbn;
    [discriminate|].
  destruct (Obj.get peerId (conns w)) as [c|] eqn:Hget; [|auto].
  destruct (Conn.open c) eqn:Hopen; [|auto].
  destruct (Conn.send c data) eqn:Hsend.
  - apply IHl; assumption.
  - assert (Hlt : (List.length (conns (dropPeer peerId w)) < fuel)%nat).
    { rewrite (conns_dropPeer _ _ _ Hget).
      pose proof (ObjFacts.delete_length_lt _ _ _ Hget). lia. }
    destruct (handleDisconnect_with (broadcastData_fuel fuel) peerId w)
      as [w1|] eqn:Hd.
    + destruct (handleDisconnect_host_effects _ (broadcastData_fuel_effects fuel)
                  _ _ _ _ _ Hhost Hget Hopen Hsend Hd) as [H1 H2].
      apply IHl.
      * rewrite (effects_isHost _ _ H2). exact Hhost.
      * pose proof (effects_length _ _ H1). lia.
    + exfalso. unfold handleDisconnect_with in Hd. rewrite Hhost in Hd.
      fold (dropPeer peerId w) in Hd.
      unfold call_handleGameDisconnect, handleGameDisconnect_with in Hd.
      replace (Store.isHost (store (dropPeer peerId w))) with true in Hd
        by (symmetry; exact Hhost).
      cbn [negb andb] in Hd.
      destruct (windowHandlers (dropPeer peerId w)); [|discriminate].
      exact (IH _ _ Hlt Hd).
Qed.

Lemma broadcastData_fuel_returns fuel :
  forall data w,
    (List.length (conns w) < fuel)%nat ->
    broadcastData_fuel fuel data w <> None.
Proof.
  induction fuel as [|fuel IH]; intros data w Hlen; [lia|].
  cbn. destruct (Store.isHost (store w)) eqn:Hhost; cbn; [|discriminate].
  apply broadcast_loop_returns; [exact IH|exact Hhost|lia].
Qed.

(** More fuel never changes a result. *)
Lemma broadcast_loop_mono (b1 b2 : Msg -> World.t -> option World.t) :
  (forall d w w', b1 d w = Some w' -> b2 d w = Some w') ->
  forall data todo w w',
    broadcast_loop b1 data todo w = Some w' ->
    broadcast_loop b2 data todo w = Some w'.
Proof.
  intros Hb data todo.
  induction todo as [|peerId rest IH]; intros w w' Hres; [exact Hres|].
  cbn in *. destruct (Obj.get peerId (conns w)) as [c|]; [|auto].
  destruct (Conn.open c); [|auto].
  destruct (Conn.send c data); [auto|].
  destruct (handleDisconnect_with b1 peerId w) as [w1|] eqn:Hd;
    [|discriminate].
  assert (Hd2 : handleDisconnect_with b2 peerId w = Some w1).
  { revert Hd.
    unfold handleDisconnect_with, call_handleGameDisconnect,
      handleGameDisconnect_with.
    repeat match goal with
           | |- context [if ?b then _ else _] => destruct b
           end; auto. }
  rewrite Hd2. auto.
Qed.

Lemma broadcastData_fuel_more fuel :
  forall fuel' data w w',
    (fuel <= fuel')%nat ->
    broadcastData_fuel fuel data w = Some w' ->
    broadcastData_fuel fuel' data w = Some w'.
Proof.
  induction fuel as [|fuel IH]; intros fuel' data w w' Hle Hres;
    [discriminate|].
  destruct fuel' as [|fuel']; [lia|].
  cbn in *. destruct (negb (Store.isHost (store w))); [exact Hres|].
  eapply broadcast_loop_mono; [|exact Hres].
  intros d v v'. apply IH. lia.
Qed.

Lemma broadcastData_fuel_enough data w :
  broadcastData_fuel (broadcast_depth w) data w = Some (broadcastData data w).
Proof.
  unfold broadcastData.
  destruct (broadcastData_fuel (broadcast_depth w) data w) eqn:E;
    [reflexivity|].
  exfalso. revert E. apply broadcastData_fuel_returns.
  unfold broadcast_depth. lia.
Qed.

Lemma broadcastData_effects data w : effects w (broadcastData data w).
Proof.
  eapply broadcastData_fuel_effects. apply broadcastData_fuel_enough.
Qed.

Lemma broadcastData_game data w : game (broadcastData data w) = game w.
Proof. apply effects_frame, broadcastData_effects. Qed.

Lemma broadcastData_isHost data w :
  Store.isHost (store (broadcastData data w)) = Store.isHost (store w).
Proof. apply effects_isHost, broadcastData_effects. Qed.

(** ** Who gets the message, and who is removed *)

Section BroadcastLoop.
Variable bcast : Msg -> World.t -> option World.t.
Hypothesis bcast_effects :
  forall data w w', bcast data w = Some w' -> effects w w'.



End BroadcastLoop.






(** ** The game functions leave the store's broadcasts aside *)

Lemma broadcastGameState_game w : game (broadcastGameState w) = game w.
Proof.
  unfold broadcastGameState.
  destruct (negb (Store.isHost (store w))); [reflexivity|].
  apply broadcastData_game.
Qed.

Lemma broadcastGameState_isHost w :
  Store.isHost (store (broadcastGameState w)) = Store.isHost (store w).
Proof.
  unfold broadcastGameState.
  destruct (negb (Store.isHost (store w))); [reflexivity|].
  apply broadcastData_isHost.
Qed.

Lemma broadcastGameOver_isHost w :
  Store.isHost (store (broadcastGameOver w)) = Store.isHost (store w).
Proof.
  unfold broadcastGameOver.
  destruct (negb (Store.isHost (store w))); [reflexivity|].
  rewrite broadcastData_isHost. reflexivity.
Qed.

(** [broadcastGameOver] runs after [stopGameTimers], which it repeats. *)
Lemma broadcastGameOver_stopped_game w :
  game (broadcastGameOver (stopGameTimers w)) = game (stopGameTimers w).
Proof.
  unfold broadcastGameOver.
  destruct (negb (Store.isHost (store (stopGameTimers w)))); [reflexivity|].
  rewrite broadcastData_game. reflexivity.
Qed.

(** The guard of [startGameHost] never returns: its inner test compares a
    boolean with a number. *)
Lemma startGameHost_starts w :
  startGameHost w =
  broadcastGameState (startGameTimers
    (map_game (fun _ =>
       Game.mk true MAX_HEALTH 0 [] false
               (Game.gameLoopInterval (game w))
               (Game.nodeSpawnInterval (game w))
               (Game.scoreInterval (game w)) 0) w)).
Proof.
  unfold startGameHost. cbn [strict_eq andb].
  rewrite andb_false_r. reflexivity.
Qed.

Lemma startGameHost_game w :
  game (startGameHost w) =
  Game.mk true MAX_HEALTH 0 [] false (Some 100) (Some 3000) (Some 1000) 0.
Proof.
  rewrite startGameHost_starts, broadcastGameState_game. reflexivity.
Qed.

(** ** The node pass of the game loop *)

Lemma mapNodes_nodes ns : forall health missed,
  filterBoolean (fst (fst (mapNodes ns health missed))) =
  map tickNode (filter (fun n => negb (expires n)) ns).
Proof.
  induction ns as [|n ns IH]; intros health missed; [reflexivity|].
  cbn [mapNodes filter].
  change (Node.timer (Node.with_timer (Node.timer n - 100) n))
    with (Node.timer n - 100).
  change (expires n) with (Node.timer n - 100 <=? 0).
  destruct (Node.timer n - 100 <=? 0) eqn:E; cbn [negb].
  - specialize (IH (Qmax 0 (health - HEALTH_LOSS_PER_MISS)) true).
    destruct (mapNodes ns _ true) as [[out h] m]. exact IH.
  - specialize (IH health missed).
    destruct (mapNodes ns health missed) as [[out h] m].
    cbn [fst filterBoolean map]. cbn [fst] in IH. rewrite IH. reflexivity.
Qed.

Lemma mapNodes_health ns : forall health missed,
  snd (fst (mapNodes ns health missed)) =
  Nat.iter (List.length (filter expires ns)) miss health.
Proof.
  induction ns as [|n ns IH]; intros health missed; [reflexivity|].
  cbn [mapNodes filter].
  change (Node.timer (Node.with_timer (Node.timer n - 100) n))
    with (Node.timer n - 100).
  change (expires n) with (Node.timer n - 100 <=? 0).
  destruct (Node.timer n - 100 <=? 0) eqn:E.
  - specialize (IH (Qmax 0 (health - HEALTH_LOSS_PER_MISS)) true).
    destruct (mapNodes ns _ true) as [[out h] m].
    cbn [fst snd] in *. rewrite IH. cbn [List.length].
    rewrite Nat.iter_succ_r. reflexivity.
  - specialize (IH health missed).
    destruct (mapNodes ns health missed) as [[out h] m]. exact IH.
Qed.

(** ** Health bounds *)

Lemma drain_amount_nonneg : (0 <= HEALTH_DRAIN_RATE / (1000 / 100))%Q.
Proof. vm_compute. discriminate. Qed.

Lemma drain_ok h : health_ok h -> health_ok (drain h).
Proof.
  intros [H0 H1]. unfold health_ok, drain, MAX_HEALTH in *.
  pose proof drain_amount_nonneg as Hd.
  split; [apply Q.le_max_l|].
  apply Q.max_lub; lra.
Qed.

Lemma miss_ok h : health_ok h -> health_ok (miss h).
Proof.
  intros [H0 H1].
  unfold health_ok, miss, MAX_HEALTH, HEALTH_LOSS_PER_MISS in *.
  split; [apply Q.le_max_l|].
  apply Q.max_lub; lra.
Qed.

Lemma iter_miss_ok k h : health_ok h -> health_ok (Nat.iter k miss h).
Proof.
  intros H. induction k as [|k IH]; [exact H|].
  cbn [Nat.iter]. apply miss_ok, IH.
Qed.

Lemma gain_ok h :
  health_ok h -> health_ok (Qmin MAX_HEALTH (h + HEALTH_GAIN_PER_CLICK)).
Proof.
  intros [H0 H1].
  unfold health_ok, MAX_HEALTH, HEALTH_GAIN_PER_CLICK in *.
  split; [|apply Q.le_min_l].
  apply Q.min_glb; lra.
Qed.

(** ** What each callback does to the game variables *)

Lemma gameLoopCallback_idle w :
  negb (Game.gameRunning (game w)) || Game.gameOver (game w) = true ->
  gameLoopCallback w = w.
Proof. intros H. unfold gameLoopCallback. rewrite H. reflexivity. Qed.

Lemma gameLoopCallback_game w :
  Game.gameRunning (game w) = true ->
  Game.gameOver (game w) = false ->
  game (gameLoopCallback w) =
  let g := game w in
  if Qle_bool (tickHealth g) 0
  then Game.mk false (tickHealth g) (Game.score g) (tickNodes g) true
               None None None (Game.nextNodeId g)
  else Game.mk true (tickHealth g) (Game.score g) (tickNodes g) false
               (Game.gameLoopInterval g) (Game.nodeSpawnInterval g)
               (Game.scoreInterval g) (Game.nextNodeId g).
Proof.
  intros Hrun Hover. unfold gameLoopCallback, tickHealth, tickNodes.
  rewrite Hrun, Hover. cbn [negb orb].
  fold (drain (Game.pulseHealth (game w))).
  pose proof (mapNodes_nodes (Game.nodes (game w))
                (drain (Game.pulseHealth (game w))) false) as Hn.
  pose proof (mapNodes_health (Game.nodes (game w))
                (drain (Game.pulseHealth (game w))) false) as Hh.
  destruct (mapNodes (Game.nodes (game w)) (drain (Game.pulseHealth (game w)))
              false) as [[mapped health3] missed].
  cbn [fst snd] in Hn, Hh. cbv zeta. rewrite <- Hn, <- Hh.
  destruct (Qle_bool health3 0).
  - rewrite broadcastGameOver_stopped_game. reflexivity.
  - destruct (missed || (Z.rem (Game.score (game w)) 5 =? 0)).
    + rewrite broadcastGameState_game. cbn.
      rewrite <- Hrun at 1. rewrite <- Hover at 1.
      destruct (game w); reflexivity.
    + cbn. rewrite <- Hrun at 1. rewrite <- Hover at 1.
      destruct (game w); reflexivity.
Qed.

Lemma gameLoopCallback_over w :
  Game.gameRunning (game w) = true ->
  Game.gameOver (game w) = false ->
  Qle_bool (tickHealth (game w)) 0 = true ->
  gameLoopCallback w = broadcastGameOver (ended w).
Proof.
  intros Hrun Hover Hzero. unfold gameLoopCallback, ended.
  unfold tickHealth, tickNodes in *.
  rewrite Hrun, Hover. cbn [negb orb].
  fold (drain (Game.pulseHealth (game w))).
  pose proof (mapNodes_nodes (Game.nodes (game w))
                (drain (Game.pulseHealth (game w))) false) as Hn.
  pose proof (mapNodes_health (Game.nodes (game w))
                (drain (Game.pulseHealth (game w))) false) as Hh.
  destruct (mapNodes (Game.nodes (game w)) (drain (Game.pulseHealth (game w)))
              false) as [[mapped health3] missed].
  cbn [fst snd] in Hn, Hh. cbv zeta. subst health3. rewrite Hn, Hzero.
  reflexivity.
Qed.

Lemma gameLoopCallback_on w :
  Game.gameRunning (game w) = true ->
  Game.gameOver (game w) = false ->
  Qle_bool (tickHealth (game w)) 0 = false ->
  gameLoopCallback w = broadcastGameState (ticked w) \/
  gameLoopCallback w = ticked w.
Proof.
  intros Hrun Hover Hpos. unfold gameLoopCallback, ticked.
  unfold tickHealth, tickNodes in *.
  rewrite Hrun, Hover. cbn [negb orb].
  fold (drain (Game.pulseHealth (game w))).
  pose proof (mapNodes_nodes (Game.nodes (game w))
                (drain (Game.pulseHealth (game w))) false) as Hn.
  pose proof (mapNodes_health (Game.nodes (game w))
                (drain (Game.pulseHealth (game w))) false) as Hh.
  destruct (mapNodes (Game.nodes (game w)) (drain (Game.pulseHealth (game w)))
              false) as [[mapped health3] missed].
  cbn [fst snd] in Hn, Hh. cbv zeta. subst health3. rewrite Hn, Hpos.
  destruct (missed || _); [left|right]; reflexivity.
Qed.

Lemma findIndex_range {A} (p : A -> bool) l : -1 <= findIndex p l.
Proof.
  induction l as [|a l IH]; cbn; [lia|].
  destruct (p a); [lia|].
  destruct (findIndex p l =? -1) eqn:E; lia.
Qed.

Lemma findIndex_found {A} (p : A -> bool) l :
  negb (findIndex p l =? -1) = existsb p l.
Proof.
  induction l as [|a l IH]; cbn; [reflexivity|].
  destruct (p a); [reflexivity|]. cbn [orb]. rewrite <- IH.
  pose proof (findIndex_range p l).
  destruct (findIndex p l =? -1) eqn:E; [reflexivity|].
  apply Z.eqb_neq in E.
  destruct (findIndex p l + 1 =? -1) eqn:E'; [|reflexivity].
  apply Z.eqb_eq in E'. lia.
Qed.

Lemma hasNode_In nodeId ns :
  hasNode nodeId ns = true <-> In nodeId (map Node.id ns).
Proof.
  unfold hasNode. rewrite existsb_exists, in_map_iff.
  split; intros (n & H1 & H2).
  - apply Z.eqb_eq in H2. eauto.
  - exists n. split; [exact H2|]. apply Z.eqb_eq. exact H1.
Qed.

Lemma handleNodeClick_guard nodeId clicker w :
  negb (Store.isHost (store w)) || negb (Game.gameRunning (game w))
    || Game.gameOver (game w) = true ->
  handleNodeClick nodeId clicker w = w.
Proof. intros H. unfold handleNodeClick. rewrite H. reflexivity. Qed.

Lemma handleNodeClick_absent nodeId clicker w :
  hasNode nodeId (Game.nodes (game w)) = false ->
  handleNodeClick nodeId clicker w = w.
Proof.
  intros H. unfold handleNodeClick.
  rewrite findIndex_found. fold (hasNode nodeId (Game.nodes (game w))).
  rewrite H. destruct (_ || _); reflexivity.
Qed.


(** ** Health stays within bounds *)

Lemma step_health_ok e w :
  health_ok (Game.pulseHealth (game w)) ->
  health_ok (Game.pulseHealth (game (step e w))).
Proof.
  intros Hok. destruct e as [| |rx ry|nodeId clicker|]; cbn [step].
  - destruct (negb (Game.gameRunning (game w)) || Game.gameOver (game w))
      eqn:G.
    + rewrite gameLoopCallback_idle by exact G. exact Hok.
    + apply orb_false_elim in G as [Hrun Hover].
      apply negb_false_iff in Hrun.
      rewrite (gameLoopCallback_game _ Hrun Hover). cbv zeta.
      assert (health_ok (tickHealth (game w)))
        by (apply iter_miss_ok, drain_ok, Hok).
      destruct (Qle_bool _ 0); assumption.
  - unfold scoreCallback. destruct (_ || _); exact Hok.
  - unfold spawnCallback, scheduleNextSpawn, spawnNode.
    destruct (negb (Store.isHost (store w)) || _ || _); cbn;
      destruct (_ || _); exact Hok.
  - unfold handleNodeClick. destruct (_ || _); [exact Hok|].
    destruct (negb _); [|exact Hok].
    rewrite broadcastGameState_game. cbn. apply gain_ok, Hok.
  - rewrite startGameHost_game. cbn. unfold health_ok, MAX_HEALTH. lra.
Qed.

Lemma run_health_ok es : forall w,
  health_ok (Game.pulseHealth (game w)) ->
  health_ok (Game.pulseHealth (game (run es w))).
Proof.
  induction es as [|e es IH]; intros w Hok; [exact Hok|].
  cbn. apply IH, step_health_ok, Hok.
Qed.

(** ** What goes on the wire *)

Lemma handleDisconnect_host bcast peerId w :
  Store.isHost (store w) = true ->
  handleDisconnect_with bcast peerId w =
  if windowHandlers w
  then bcast (peerDisconnect peerId) (dropPeer peerId w)
  else Some (dropPeer peerId w).
Proof.
  intros Hhost. unfold handleDisconnect_with. rewrite Hhost.
  fold (dropPeer peerId w).
  unfold call_handleGameDisconnect, handleGameDisconnect_with.
  change (windowHandlers (dropPeer peerId w)) with (windowHandlers w).
  change (Store.isHost (store (dropPeer peerId w)))
    with (Store.isHost (store w)).
  rewrite Hhost. reflexivity.
Qed.

Lemma relays_notice data peerId e :
  relays (peerDisconnect peerId) e -> relays data e.
Proof. intros [H|H]; right; [exists peerId; exact H|exact H]. Qed.

Section BroadcastWire.
Variable bcast : Msg -> World.t -> option World.t.
Hypothesis bcast_effects :
forall data w w', bcast data w = Some w' -> effects w w'.
Hypothesis bcast_wire :
forall data w w', bcast data w = Some w' ->
  exists l, wire w' = wire w ++ l /\ Forall (relays data) l.

Lemma broadcast_loop_wire data todo :
forall w w',
  Store.isHost (store w) = true ->
  broadcast_loop bcast data todo w = Some w' ->
  exists l, wire w' = wire w ++ l /\ Forall (relays data) l.
Proof.
induction todo as [|peerId rest IH]; intros w w' Hhost Hres; cbn in Hres.
- injection Hres as <-. exists []. split; [symmetry; apply app_nil_r|].
  constructor.
- destruct (Obj.get peerId (conns w)) as [c|] eqn:Hget; [|eauto].
  destruct (Conn.open c) eqn:Hopen; [|eauto].
  destruct (Conn.send c data) eqn:Hsend.
  + destruct (IH (deliver peerId data w) _ Hhost Hres) as (l & Hl & Hall).
    exists ((peerId, data) :: l). split.
    * rewrite Hl. unfold deliver. cbn [wire with_wire].
      rewrite <- app_assoc. reflexivity.
    * constructor; [left; reflexivity|exact Hall].
  + rewrite (handleDisconnect_host _ _ _ Hhost) in Hres.
    destruct (windowHandlers w).
    * destruct (bcast (peerDisconnect peerId) (dropPeer peerId w))
        as [w1|] eqn:Hb; [|discriminate].
      destruct (bcast_wire _ _ _ Hb) as (l1 & Hl1 & Hall1).
      assert (Hhost1 : Store.isHost (store w1) = true).
      { rewrite (effects_isHost _ _ (bcast_effects _ _ _ Hb)). exact Hhost. }
      destruct (IH _ _ Hhost1 Hres) as (l & Hl & Hall).
      exists (l1 ++ l). split.
      -- rewrite Hl, Hl1. cbn [dropPeer]. rewrite <- app_assoc. reflexivity.
      -- apply Forall_app. split; [|exact Hall].
         eapply Forall_impl; [|exact Hall1].
         intros e. apply relays_notice.
    * apply (IH (dropPeer peerId w)); assumption.
Qed.
End BroadcastWire.

Lemma broadcastData_fuel_wire fuel :
  forall data w w',
    broadcastData_fuel fuel data w = Some w' ->
    exists l, wire w' = wire w ++ l /\ Forall (relays data) l.
Proof.
  induction fuel as [|fuel IH]; intros data w w' Hres; cbn in Hres;
    [discriminate|].
  destruct (Store.isHost (store w)) eqn:Hhost; cbn in Hres.
  - eapply broadcast_loop_wire; eauto using broadcastData_fuel_effects.
  - injection Hres as <-. exists []. split; [symmetry; apply app_nil_r|].
    constructor.
Qed.

Lemma broadcastData_wire data w :
  exists l, wire (broadcastData data w) = wire w ++ l /\ Forall (relays data) l.
Proof.
  eapply broadcastData_fuel_wire. apply broadcastData_fuel_enough.
Qed.

Lemma wire_grows_refl w w' : wire w' = wire w -> wire_grows_ok w w'.
Proof.
  intros H. exists []. split; [rewrite app_nil_r; exact H|constructor].
Qed.

Lemma wire_grows_trans a b c :
  wire_grows_ok a b -> wire_grows_ok b c -> wire_grows_ok a c.
Proof.
  intros (l1 & H1 & A1) (l2 & H2 & A2). exists (l1 ++ l2). split.
  - rewrite H2, H1. symmetry. apply app_assoc.
  - apply Forall_app. split; assumption.
Qed.

Lemma broadcastData_grows_ok data w :
  snapshot_ok ("", data) -> wire_grows_ok w (broadcastData data w).
Proof.
  intros Hok. destruct (broadcastData_wire data w) as (l & Hl & Hall).
  exists l. split; [exact Hl|].
  eapply Forall_impl; [|exact Hall].
  intros e [He|[p He]]; unfold snapshot_ok in *; rewrite He;
    [exact Hok|exact I].
Qed.

Lemma broadcastGameState_grows_ok w :
  health_ok (Game.pulseHealth (game w)) ->
  wire_grows_ok w (broadcastGameState w).
Proof.
  intros Hok. unfold broadcastGameState.
  destruct (negb (Store.isHost (store w)));
    [apply wire_grows_refl; reflexivity|].
  apply broadcastData_grows_ok. exact Hok.
Qed.

Lemma broadcastGameOver_grows_ok w : wire_grows_ok w (broadcastGameOver w).
Proof.
  unfold broadcastGameOver.
  destruct (negb (Store.isHost (store w)));
    [apply wire_grows_refl; reflexivity|].
  eapply wire_grows_trans;
    [apply (wire_grows_refl w (stopGameTimers w)); reflexivity|].
  apply broadcastData_grows_ok. exact I.
Qed.

Lemma startGameHost_grows_ok w : wire_grows_ok w (startGameHost w).
Proof.
  rewrite startGameHost_starts.
  eapply wire_grows_trans;
    [|apply broadcastGameState_grows_ok; cbn;
      unfold health_ok, MAX_HEALTH; lra].
  apply wire_grows_refl; reflexivity.
Qed.

Lemma step_grows_ok e w :
  health_ok (Game.pulseHealth (game w)) -> wire_grows_ok w (step e w).
Proof.
  intros Hok. destruct e as [| |rx ry|nodeId clicker|]; cbn [step].
  - destruct (negb (Game.gameRunning (game w)) || Game.gameOver (game w))
      eqn:G.
    + rewrite gameLoopCallback_idle by exact G.
      apply wire_grows_refl; reflexivity.
    + apply orb_false_elim in G as [Hrun Hover].
      apply negb_false_iff in Hrun.
      assert (Hth : health_ok (tickHealth (game w)))
        by (apply iter_miss_ok, drain_ok, Hok).
      destruct (Qle_bool (tickHealth (game w)) 0) eqn:Hz.
      * rewrite (gameLoopCallback_over _ Hrun Hover Hz).
        eapply wire_grows_trans; [|apply broadcastGameOver_grows_ok].
        apply wire_grows_refl; reflexivity.
      * destruct (gameLoopCallback_on _ Hrun Hover Hz) as [-> | ->].
        -- eapply wire_grows_trans;
             [|apply broadcastGameState_grows_ok; exact Hth].
           apply wire_grows_refl; reflexivity.
        -- apply wire_grows_refl; reflexivity.
  - apply wire_grows_refl. unfold scoreCallback.
    destruct (_ || _); reflexivity.
  - apply wire_grows_refl. unfold spawnCallback, scheduleNextSpawn, spawnNode.
    destruct (negb (Store.isHost (store w)) || _ || _); cbn;
      destruct (_ || _); reflexivity.
  - unfold handleNodeClick.
    destruct (_ || _); [apply wire_grows_refl; reflexivity|].
    destruct (negb _); [|apply wire_grows_refl; reflexivity].
    eapply wire_grows_trans;
      [|apply broadcastGameState_grows_ok; cbn; apply gain_ok, Hok].
    apply wire_grows_refl; reflexivity.
  - apply startGameHost_grows_ok.
Qed.

Lemma run_grows_ok es : forall w,
  health_ok (Game.pulseHealth (game w)) -> wire_grows_ok w (run es w).
Proof.
  induction es as [|e es IH]; intros w Hok;
    [apply wire_grows_refl; reflexivity|].
  cbn. eapply wire_grows_trans; [apply step_grows_ok; exact Hok|].
  apply IH, step_health_ok, Hok.
Qed.

(** C1: from any world, start the game and let any sequence of ticks (drain
    and target expiries), score ticks, spawns, clicks and restarts happen:
    health then lies in [[0, MAX_HEALTH]], and so does the health shown by
    every snapshot put on the wire since the start. *)
Theorem health_stays_within_bounds (w : World.t) (es : list SimOp.t) :
  let w' := run es (startGameHost w) in
  (0 <= Game.pulseHealth (game w') /\
   Game.pulseHealth (game w') <= MAX_HEALTH)%Q /\
  exists sent,
    wire w' = wire w ++ sent /\
    forall q state,
      In (q, gameStateUpdate state) sent ->
      (0 <= Snapshot.health state /\ Snapshot.health state <= MAX_HEALTH)%Q.
Proof.
  intros w'. split.
  - apply run_health_ok. rewrite startGameHost_game. cbn.
    unfold health_ok, MAX_HEALTH. lra.
  - assert (H : wire_grows_ok w w').
    { eapply wire_grows_trans; [apply startGameHost_grows_ok|].
      apply run_grows_ok. rewrite startGameHost_game. cbn.
      unfold health_ok, MAX_HEALTH. lra. }
    destruct H as (sent & Hsent & Hall). exists sent.
    split; [exact Hsent|].
    intros q state Hin. rewrite Forall_forall in Hall.
    exact (Hall _ Hin).
Qed.

(** ** Spawn delay *)

(** C8: the delay armed by [scheduleNextSpawn] is
    [max(NODE_SPAWN_INTERVAL_MIN, NODE_SPAWN_INTERVAL_START - score * 10)];
    it never drops below [NODE_SPAWN_INTERVAL_MIN], and a higher score never
    gives a longer delay. *)
Theorem spawn_delay_ramp (w1 w2 : World.t) :
  Game.gameRunning (game w1) = true -> Game.gameOver (game w1) = false ->
  Game.gameRunning (game w2) = true -> Game.gameOver (game w2) = false ->
  Game.score (game w1) <= Game.score (game w2) ->
  exists d1 d2,
    Game.nodeSpawnInterval (game (scheduleNextSpawn w1)) = Some d1 /\
    Game.nodeSpawnInterval (game (scheduleNextSpawn w2)) = Some d2 /\
    d1 = Z.max NODE_SPAWN_INTERVAL_MIN
               (NODE_SPAWN_INTERVAL_START - Game.score (game w1) * 10) /\
    d2 = Z.max NODE_SPAWN_INTERVAL_MIN
               (NODE_SPAWN_INTERVAL_START - Game.score (game w2) * 10) /\
    d2 <= d1 /\ NODE_SPAWN_INTERVAL_MIN <= d2.
Proof.
  intros Hr1 Ho1 Hr2 Ho2 Hle. unfold scheduleNextSpawn.
  rewrite Hr1, Ho1, Hr2, Ho2. cbn [negb orb].
  eexists. eexists.
  split; [reflexivity|]. split; [reflexivity|].
  split; [reflexivity|]. split; [reflexivity|].
  unfold NODE_SPAWN_INTERVAL_MIN, NODE_SPAWN_INTERVAL_START. lia.
Qed.

(** ** Clicks *)



(** C6: a click on an absent target, or while the game is not running, changes
    nothing: health, score, nodes, store and wire are as before. *)
Theorem handleNodeClick_noop (nodeId : Z) (clicker : string) (w : World.t) :
  ~ In nodeId (map Node.id (Game.nodes (game w)))
  \/ Game.gameRunning (game w) = false
  \/ Game.gameOver (game w) = true ->
  handleNodeClick nodeId clicker w = w.
Proof.
  intros [Habsent|[Hrun|Hover]].
  - apply handleNodeClick_absent.
    destruct (hasNode nodeId (Game.nodes (game w))) eqn:E; [|reflexivity].
    apply hasNode_In in E. contradiction.
  - apply handleNodeClick_guard. rewrite Hrun.
    cbn [negb]. rewrite orb_true_r. reflexivity.
  - apply handleNodeClick_guard. rewrite Hover. apply orb_true_r.
Qed.

(** ** Incoming data on a client *)

(** A [gameStateUpdate] from anyone but the bound host is dropped. *)
Lemma stale_gameStateUpdate_dropped state sender w :
  Store.isHost (store w) = false ->
  (forall hc, Store.hostConnection (store w) = Some hc ->
              Conn.peer hc <> sender) ->
  handleGameData (gameStateUpdate state) sender w = w.
Proof.
  intros Hhost Hstale. cbn [handleGameData]. rewrite Hhost. cbn [negb].
  destruct (Store.hostConnection (store w)) as [hc|] eqn:E; [|reflexivity].
  destruct (String.eqb sender (Conn.peer hc)) eqn:Es; [|reflexivity].
  apply String.eqb_eq in Es. exfalso.
  apply (Hstale hc eq_refl). symmetry. exact Es.
Qed.

(** The [gameOver] branch never looks at the sender. *)
Lemma gameOver_ignores_sender finalScore sender1 sender2 w :
  handleGameData (gameOverMsg finalScore) sender1 w =
  handleGameData (gameOverMsg finalScore) sender2 w.
Proof. reflexivity. Qed.

(** C10: on a client, a [gameOver] message ends the game and stops the
    timers; the score is overwritten only by a truthy [finalScore], so a
    [finalScore] of 0 leaves the mirrored score as it was. *)
Theorem gameOver_zero_finalScore_keeps_score
    (finalScore : Z) (sender : string) (w : World.t) :
  Store.isHost (store w) = false ->
  let g' := game (handleGameData (gameOverMsg finalScore) sender w) in
  Game.gameOver g' = true /\
  Game.gameRunning g' = false /\
  Game.gameLoopInterval g' = None /\
  Game.scoreInterval g' = None /\
  Game.nodeSpawnInterval g' = None /\
  (finalScore = 0 -> Game.score g' = Game.score (game w)) /\
  (finalScore <> 0 -> Game.score g' = finalScore).
Proof.
  intros Hhost. cbn [handleGameData]. rewrite Hhost. cbn [negb truthy].
  destruct (finalScore =? 0) eqn:E; cbn.
  - apply Z.eqb_eq in E. repeat split; auto. intros. contradiction.
  - apply Z.eqb_neq in E. repeat split; auto. intros. contradiction.
Qed.

(** ** Game over *)




(** ** Target expiry *)

Lemma map_id_tickNode ns : map Node.id (map tickNode ns) = map Node.id ns.
Proof. rewrite map_map. reflexivity. Qed.

Lemma In_ids_filter p ns i :
  In i (map Node.id (filter p ns)) -> In i (map Node.id ns).
Proof.
  rewrite !in_map_iff. intros (n & Hid & Hn).
  apply filter_In in Hn as [Hn _]. eauto.
Qed.

Lemma NoDup_ids_filter p ns :
  NoDup (map Node.id ns) -> NoDup (map Node.id (filter p ns)).
Proof.
  induction ns as [|a ns IH]; intros Hnd; [constructor|].
  cbn [map] in Hnd. inversion Hnd as [|? ? Hnotin Hnd']; subst.
  cbn [filter]. destruct (p a); [|auto].
  cbn [map]. constructor; [|auto].
  intros Hin. apply Hnotin. eapply In_ids_filter. exact Hin.
Qed.



Lemma spawnCallback_game rx ry w :
  (Game.nodes (game (spawnCallback rx ry w)) = Game.nodes (game w) /\
   Game.nextNodeId (game (spawnCallback rx ry w)) = Game.nextNodeId (game w))
  \/
  (Game.nodes (game (spawnCallback rx ry w)) =
     Game.nodes (game w) ++
       [Node.mk (Game.nextNodeId (game w)) (rx * 80 + 10)%Q (ry * 80 + 10)%Q
                NODE_TIMER_DURATION NODE_TIMER_DURATION] /\
   Game.nextNodeId (game (spawnCallback rx ry w)) =
     Game.nextNodeId (game w) + 1).
Proof.
  unfold spawnCallback, scheduleNextSpawn, spawnNode.
  destruct (negb (Store.isHost (store w)) || _ || _).
  - left. destruct (_ || _); split; reflexivity.
  - right. cbn. destruct (_ || _); split; reflexivity.
Qed.

Lemma handleNodeClick_game nodeId clicker w :
  handleNodeClick nodeId clicker w = w \/
  (Game.nodes (game (handleNodeClick nodeId clicker w)) =
     withoutNode nodeId (Game.nodes (game w)) /\
   Game.nextNodeId (game (handleNodeClick nodeId clicker w)) =
     Game.nextNodeId (game w)).
Proof.
  unfold handleNodeClick. destruct (_ || _); [left; reflexivity|].
  destruct (negb _); [|left; reflexivity].
  right. rewrite broadcastGameState_game. split; reflexivity.
Qed.

Lemma step_ids_ok e w : ids_ok (game w) -> ids_ok (game (step e w)).
Proof.
  intros [Hnd Hlt]. destruct e as [| |rx ry|nodeId clicker|]; cbn [step].
  - destruct (negb (Game.gameRunning (game w)) || Game.gameOver (game w))
      eqn:G.
    + rewrite gameLoopCallback_idle by exact G. split; assumption.
    + apply orb_false_elim in G as [Hrun Hover].
      apply negb_false_iff in Hrun.
      rewrite (gameLoopCallback_game _ Hrun Hover). cbv zeta.
      assert (Hok : NoDup (map Node.id (tickNodes (game w))) /\
                    Forall (fun i => i < Game.nextNodeId (game w))
                           (map Node.id (tickNodes (game w)))).
      { unfold tickNodes. rewrite map_id_tickNode. split.
        - apply NoDup_ids_filter. exact Hnd.
        - rewrite Forall_forall in *. intros i Hi.
          apply Hlt. eapply In_ids_filter. exact Hi. }
      destruct (Qle_bool _ 0); exact Hok.
  - unfold scoreCallback. destruct (_ || _); split; assumption.
  - destruct (spawnCallback_game rx ry w) as [[Hn Hi]|[Hn Hi]];
      unfold ids_ok; rewrite Hn, Hi; [split; assumption|].
    rewrite map_app. cbn [map Node.id]. split.
    + apply NoDup_app; [exact Hnd|repeat constructor; intros []|].
      intros i Hi1 [<-|[]]. rewrite Forall_forall in Hlt.
      apply Hlt in Hi1. lia.
    + apply Forall_app. split.
      * eapply Forall_impl; [|exact Hlt]. cbn. intros. lia.
      * repeat constructor. lia.
  - destruct (handleNodeClick_game nodeId clicker w) as [->|[Hn Hi]];
      [split; assumption|].
    unfold ids_ok. rewrite Hn, Hi. unfold withoutNode. split.
    + apply NoDup_ids_filter. exact Hnd.
    + rewrite Forall_forall in *. intros i Hin.
      apply Hlt. eapply In_ids_filter. exact Hin.
  - rewrite startGameHost_game. split; constructor.
Qed.

(** Every state of a started game has distinct, already issued node ids. *)
Lemma run_ids_ok es : forall w, ids_ok (game w) -> ids_ok (game (run es w)).
Proof.
  induction es as [|e es IH]; intros w Hok; [exact Hok|].
  cbn. apply IH, step_ids_ok, Hok.
Qed.




(** ** Broadcast *)


(** ** Worked examples *)



Lemma spawn_delay_ramp_witness :
  exists d1 d2,
    Game.nodeSpawnInterval (game (scheduleNextSpawn ex_host)) = Some d1 /\
    Game.nodeSpawnInterval (game (scheduleNextSpawn ex_solo)) = Some d2 /\
    d1 = Z.max NODE_SPAWN_INTERVAL_MIN (NODE_SPAWN_INTERVAL_START - 7 * 10) /\
    d2 = Z.max NODE_SPAWN_INTERVAL_MIN (NODE_SPAWN_INTERVAL_START - 300 * 10) /\
    d2 <= d1 /\ NODE_SPAWN_INTERVAL_MIN <= d2.
Proof.
  apply (spawn_delay_ramp ex_host ex_solo);
    [reflexivity|reflexivity|reflexivity|reflexivity|cbn; lia].
Defined.


Lemma handleNodeClick_noop_witness :
  ~ In 5 (map Node.id (Game.nodes (game ex_host))) /\
  handleNodeClick 5 "a" ex_host = ex_host.
Proof.
  assert (H : ~ In 5 (map Node.id (Game.nodes (game ex_host)))).
  { cbn. intros [H|[H|[]]]; discriminate H. }
  split; [exact H|].
  apply (handleNodeClick_noop 5 "a" ex_host). left. exact H.
Defined.

Lemma gameOver_zero_finalScore_keeps_score_witness :
  Game.gameOver (game (handleGameData (gameOverMsg 0) "host-b" ex_client))
    = true /\
  Game.score (game (handleGameData (gameOverMsg 0) "host-b" ex_client)) = 3.
Proof.
  destruct (gameOver_zero_finalScore_keeps_score 0 "host-b" ex_client
              eq_refl) as (Hover & _ & _ & _ & _ & Hscore & _).
  split; [exact Hover|]. exact (Hscore eq_refl).
Defined.




(** The three-peer broadcast in full: ["a"] is served, the send to ["b"]
    throws and the page relays its departure to the others, then ["c"] is
    served. *)
Example broadcast_three_peers :
  wire (broadcastData (gameOverMsg 7) ex_host) =
    [("a", gameOverMsg 7); ("a", peerDisconnect "b");
     ("c", peerDisconnect "b"); ("c", gameOverMsg 7)] /\
  Store.connectedPeers (store (broadcastData (gameOverMsg 7) ex_host)) =
    ["a"; "c"].
Proof. split; reflexivity. Qed.

(** ** Where the code departs from the specification *)

(** C2: [startGameHost] on a running game.  The guard logs that the game
    cannot be started and falls through: the game is reset and restarted and
    a fresh snapshot goes out. *)
Theorem startGameHost_restarts_running_game :
  Game.gameRunning (game ex_host) = true /\
  Game.pulseHealth (game ex_host) = 50%Q /\
  Game.score (game ex_host) = 7 /\
  game (startGameHost ex_host) =
    Game.mk true MAX_HEALTH 0 [] false (Some 100) (Some 3000) (Some 1000) 0 /\
  In ("a", gameStateUpdate (Snapshot.mk MAX_HEALTH 0 [] true false))
     (wire (startGameHost ex_host)) /\
  startGameHost ex_host <> ex_host.
Proof.
  split; [reflexivity|]. split; [reflexivity|]. split; [reflexivity|].
  split; [apply startGameHost_game|].
  split; [vm_compute; left; reflexivity|].
  intros H. apply (f_equal (fun w => Game.score (game w))) in H.
  rewrite startGameHost_game in H. discriminate H.
Qed.

(** C3: a [gameOver] message from a peer other than the bound host.  Unlike
    [gameStateUpdate], the [gameOver] branch does not look at the sender: the
    client's game ends and its score is overwritten. *)
Theorem stale_gameOver_not_dropped :
  Store.hostConnection (store ex_client) = Some (steady "host-b") /\
  game (handleGameData (gameOverMsg 9) "host-a" ex_client) =
    Game.mk false 80 9 ex_nodes true None None None 0 /\
  handleGameData (gameOverMsg 9) "host-a" ex_client <> ex_client /\
  handleGameData
    (gameStateUpdate (Snapshot.mk 0 9 [] false true)) "host-a" ex_client
    = ex_client.
Proof.
  split; [reflexivity|]. split; [reflexivity|]. split; [|reflexivity].
  intros H. apply (f_equal (fun w => Game.score (game w))) in H.
  discriminate H.
Qed.

(** * Further properties of the connection store *)

(** ** Assignment to a connection map *)








(** ** Disconnects *)








(** ** More on what a broadcast leaves alone *)










(** ** No peer is served twice *)

Section BroadcastOnce.
Variable bcast : Msg -> World.t -> option World.t.
Hypothesis bcast_effects :
  forall data w w', bcast data w = Some w' -> effects w w'.
Hypothesis bcast_wire :
  forall data w w', bcast data w = Some w' ->
    exists l, wire w' = wire w ++ l /\ Forall (relays data) l.



End BroadcastOnce.



(** ** Incoming connections and joining *)




(** X10: [joinGame] with an empty game id, or before the peer is ready,
    changes nothing but the error message: no connection is attempted, and the
    role, the connections, the game and the wire are untouched. *)
Theorem joinGame_rejects (peerReady : bool) (gameIdToJoin : string)
    (conn : Conn.t) (w : World.t) :
  peerReady = false \/ gameIdToJoin = "" ->
  exists message,
    message <> "" /\
    joinGame peerReady gameIdToJoin conn w =
      map_store (Store.with_connectionError message) w.
Proof.
  intros H. unfold joinGame, connectToHost.
  destruct (String.eqb gameIdToJoin "") eqn:E; cbn [negb].
  - eexists. split; [|reflexivity]. discriminate.
  - destruct H as [-> | ->]; [|discriminate E].
    cbn [negb]. eexists. split; [|reflexivity]. discriminate.
Qed.

Lemma joinGame_rejects_witness :
  exists message,
    message <> "" /\
    joinGame true "" (steady "host-b") initial_world =
      map_store (Store.with_connectionError message) initial_world.
Proof.
  apply (joinGame_rejects true "" (steady "host-b") initial_world).
  right. reflexivity.
Defined.



(** * Further properties of the page *)

(** ** Data from peers *)

Lemma handleNodeClick_clicker nodeId clicker1 clicker2 w :
  handleNodeClick nodeId clicker1 w = handleNodeClick nodeId clicker2 w.
Proof. reflexivity. Qed.

Lemma handleNodeClick_cases nodeId clicker w :
  handleNodeClick nodeId clicker w = w \/
  (hasNode nodeId (Game.nodes (game w)) = true /\
   handleNodeClick nodeId clicker w = broadcastGameState (clicked nodeId w)).
Proof.
  unfold handleNodeClick. destruct (_ || _); [left; reflexivity|].
  rewrite findIndex_found. fold (hasNode nodeId (Game.nodes (game w))).
  destruct (hasNode nodeId (Game.nodes (game w))); [right|left]; auto.
Qed.

Lemma hasNode_withoutNode nodeId ns :
  hasNode nodeId (withoutNode nodeId ns) = false.
Proof.
  unfold hasNode, withoutNode.
  induction ns as [|n ns IH]; cbn; [reflexivity|].
  destruct (Node.id n =? nodeId) eqn:E; cbn; [exact IH|].
  rewrite E. exact IH.
Qed.

(** X12: no message can make the host do anything but process a click: on
    the host, incoming data either leaves the world unchanged or is a
    [clickNode] action handled by [handleNodeClick].  So a peer's message
    never changes the score, never adds a node and never lowers health. *)
Theorem host_data_only_clicks (data : Msg) (sender : string) (w : World.t) :
  Store.isHost (store w) = true ->
  let w' := handleIncomingData data sender w in
  (w' = w \/
   exists nodeId,
     data = playerAction "clickNode" nodeId /\
     w' = handleNodeClick nodeId sender w) /\
  Game.score (game w') = Game.score (game w) /\
  Game.nextNodeId (game w') = Game.nextNodeId (game w) /\
  (forall n, In n (Game.nodes (game w')) -> In n (Game.nodes (game w))) /\
  ((Game.pulseHealth (game w) <= MAX_HEALTH)%Q ->
   (Game.pulseHealth (game w) <= Game.pulseHealth (game w'))%Q).
Proof.
  intros Hhost w'.
  assert (Hcases : w' = w \/
    exists nodeId, data = playerAction "clickNode" nodeId /\
                   w' = handleNodeClick nodeId sender w).
  { unfold w', handleIncomingData, handleGameData.
    destruct (windowHandlers w); [|left; reflexivity].
    rewrite Hhost. cbn [negb].
    destruct data as [state|action nodeId|finalScore|m h|p|ty];
      try (left; reflexivity).
    destruct (String.eqb action "clickNode") eqn:E; [|left; reflexivity].
    apply String.eqb_eq in E. subst action. right. eauto. }
  split; [exact Hcases|].
  destruct Hcases as [->|(nodeId & _ & ->)].
  - repeat split; auto. intros _. apply Qle_refl.
  - destruct (handleNodeClick_cases nodeId sender w) as [->|[_ ->]].
    + repeat split; auto. intros _. apply Qle_refl.
    + rewrite broadcastGameState_game. cbn.
      split; [reflexivity|]. split; [reflexivity|]. split.
      * intros n Hn. unfold withoutNode in Hn.
        apply filter_In in Hn. apply Hn.
      * intros Hmax. apply Q.min_glb; [exact Hmax|].
        unfold HEALTH_GAIN_PER_CLICK. lra.
Qed.

Lemma host_data_only_clicks_witness :
  Game.score (game (handleIncomingData
                      (gameStateUpdate (Snapshot.mk 0 999 [] false true))
                      "a" ex_host)) = 7 /\
  Game.score (game (handleIncomingData (playerAction "clickNode" 1)
                      "a" ex_host)) = 7.
Proof.
  split.
  - apply (host_data_only_clicks
             (gameStateUpdate (Snapshot.mk 0 999 [] false true)) "a" ex_host
             eq_refl).
  - apply (host_data_only_clicks (playerAction "clickNode" 1) "a" ex_host
             eq_refl).
Defined.

(** X13: [welcome], [peerDisconnect] and unrecognised messages change
    nothing, whatever the role; a client ignores [playerAction]; the host
    ignores every action other than ["clickNode"]; and before the page has
    installed its handler all incoming data is dropped. *)
Theorem ignored_messages (data : Msg) (sender : string) (w : World.t) :
  (windowHandlers w = false -> handleIncomingData data sender w = w) /\
  ((forall state, data <> gameStateUpdate state) ->
   (forall finalScore, data <> gameOverMsg finalScore) ->
   (forall nodeId, data <> playerAction "clickNode" nodeId) ->
   handleIncomingData data sender w = w) /\
  (Store.isHost (store w) = false ->
   forall action nodeId,
     handleIncomingData (playerAction action nodeId) sender w = w).
Proof.
  unfold handleIncomingData. split; [intros ->; reflexivity|]. split.
  - intros Hs Hg Hc. destruct (windowHandlers w); [|reflexivity].
    destruct data as [state|action nodeId|finalScore|m h|p|ty];
      try reflexivity.
    + exfalso. exact (Hs state eq_refl).
    + cbn. destruct (Store.isHost (store w)); [|reflexivity].
      destruct (String.eqb action "clickNode") eqn:E; [|reflexivity].
      apply String.eqb_eq in E. subst action.
      exfalso. exact (Hc nodeId eq_refl).
    + exfalso. exact (Hg finalScore eq_refl).
  - intros Hhost action nodeId. destruct (windowHandlers w); [|reflexivity].
    cbn. rewrite Hhost. reflexivity.
Qed.



(** ** Clicks *)

(** X15: a target can be claimed once: handling a second click for the same
    node id, from anyone, changes nothing more (no second heal, no second
    broadcast). *)
Theorem handleNodeClick_idempotent (nodeId : Z) (clicker1 clicker2 : string)
    (w : World.t) :
  handleNodeClick nodeId clicker2 (handleNodeClick nodeId clicker1 w) =
  handleNodeClick nodeId clicker1 w.
Proof.
  destruct (handleNodeClick_cases nodeId clicker1 w) as [H|[_ H]].
  - rewrite H. rewrite (handleNodeClick_clicker nodeId clicker2 clicker1).
    exact H.
  - rewrite H. apply handleNodeClick_absent.
    rewrite broadcastGameState_game. apply hasNode_withoutNode.
Qed.



(** X17: on the host, a peer's ["clickNode"] action has exactly the effect
    of the host clicking the node itself. *)
Theorem remote_click_same_as_local (ownPeerId sender : string) (nodeId : Z)
    (w : World.t) :
  Store.isHost (store w) = true ->
  windowHandlers w = true ->
  handleIncomingData (playerAction "clickNode" nodeId) sender w =
  onNodeInteraction ownPeerId nodeId w.
Proof.
  intros Hhost Hm. unfold handleIncomingData, onNodeInteraction.
  rewrite Hm, Hhost. cbn [handleGameData String.eqb Ascii.eqb Bool.eqb].
  rewrite Hhost. cbn.
  destruct (negb (Game.gameRunning (game w)) || Game.gameOver (game w)) eqn:G;
    [|reflexivity].
  apply handleNodeClick_guard. rewrite Hhost. cbn [negb orb]. exact G.
Qed.

Lemma remote_click_same_as_local_witness :
  handleIncomingData (playerAction "clickNode" 1) "a" ex_host =
  onNodeInteraction "host" 1 ex_host.
Proof.
  apply (remote_click_same_as_local "host" "a" 1 ex_host eq_refl eq_refl).
Defined.

(** ** The simulation, from start to game over *)

Lemma step_cases e w :
  step e w = w \/
  match e with
  | SimOp.Tick =>
      Game.gameRunning (game w) = true /\ Game.gameOver (game w) = false /\
      ((Qle_bool (tickHealth (game w)) 0 = true /\
        step e w = broadcastGameOver (ended w)) \/
       (Qle_bool (tickHealth (game w)) 0 = false /\
        (step e w = broadcastGameState (ticked w) \/ step e w = ticked w)))
  | SimOp.ScoreTick =>
      Game.gameRunning (game w) = true /\ Game.gameOver (game w) = false /\
      step e w = map_game (Game.with_score (Game.score (game w) + 1)) w
  | SimOp.Spawn rx ry =>
      Game.gameRunning (game w) = true /\ Game.gameOver (game w) = false /\
      step e w = scheduleNextSpawn (spawnNode rx ry w)
  | SimOp.Click nodeId clicker =>
      Store.isHost (store w) = true /\
      Game.gameRunning (game w) = true /\ Game.gameOver (game w) = false /\
      step e w = broadcastGameState (clicked nodeId w)
  | SimOp.Start =>
      step e w =
      broadcastGameState (startGameTimers
        (map_game (fun _ =>
           Game.mk true MAX_HEALTH 0 [] false
                   (Game.gameLoopInterval (game w))
                   (Game.nodeSpawnInterval (game w))
                   (Game.scoreInterval (game w)) 0) w))
  end.
Proof.
  destruct e as [| |rx ry|nodeId clicker|]; cbn [step].
  - destruct (negb (Game.gameRunning (game w)) || Game.gameOver (game w))
      eqn:G; [left; apply gameLoopCallback_idle; exact G|].
    apply orb_false_elim in G as [Hrun Hover]. apply negb_false_iff in Hrun.
    right. split; [exact Hrun|]. split; [exact Hover|].
    destruct (Qle_bool (tickHealth (game w)) 0) eqn:Hz.
    + left. split; [reflexivity|]. apply gameLoopCallback_over; assumption.
    + right. split; [reflexivity|]. apply gameLoopCallback_on; assumption.
  - unfold scoreCallback.
    destruct (negb (Game.gameRunning (game w)) || Game.gameOver (game w))
      eqn:G; [left; reflexivity|].
    apply orb_false_elim in G as [Hrun Hover]. apply negb_false_iff in Hrun.
    right. auto.
  - destruct (negb (Game.gameRunning (game w)) || Game.gameOver (game w))
      eqn:G.
    + left. unfold spawnCallback, spawnNode.
      replace (negb (Store.isHost (store w))
               || negb (Game.gameRunning (game w)) || Game.gameOver (game w))
        with true
        by (rewrite <- orb_assoc, G, orb_true_r; reflexivity).
      unfold scheduleNextSpawn. rewrite G. reflexivity.
    + apply orb_false_elim in G as [Hrun Hover]. apply negb_false_iff in Hrun.
      right. auto.
  - destruct (handleNodeClick_cases nodeId clicker w) as [H|[_ H]];
      [left; exact H|].
    unfold handleNodeClick in *.
    destruct (Store.isHost (store w)) eqn:Hhost;
      [|left; reflexivity].
    destruct (Game.gameRunning (game w)) eqn:Hrun; [|left; reflexivity].
    destruct (Game.gameOver (game w)) eqn:Hover; [left; reflexivity|].
    right. auto.
  - right. apply startGameHost_starts.
Qed.

Lemma scheduleNextSpawn_running w :
  Game.gameRunning (game w) = true -> Game.gameOver (game w) = false ->
  scheduleNextSpawn w =
  map_game (Game.with_nodeSpawnInterval (Some (spawnDelay (game w)))) w.
Proof.
  intros Hrun Hover. unfold scheduleNextSpawn. rewrite Hrun, Hover.
  reflexivity.
Qed.

Lemma spawnNode_not_host rx ry w :
  Store.isHost (store w) = false -> spawnNode rx ry w = w.
Proof. intros Hhost. unfold spawnNode. rewrite Hhost. reflexivity. Qed.

Lemma spawnNode_host rx ry w :
  Store.isHost (store w) = true ->
  Game.gameRunning (game w) = true -> Game.gameOver (game w) = false ->
  spawnNode rx ry w =
  map_game (fun g =>
    Game.with_nodes (Game.nodes g ++ [spawned g rx ry])
      (Game.with_nextNodeId (Game.nextNodeId g + 1) g)) w.
Proof.
  intros Hhost Hrun Hover. unfold spawnNode. rewrite Hhost, Hrun, Hover.
  reflexivity.
Qed.

Lemma step_game_move e w :
  game_move (Store.isHost (store w)) (game w) e (game (step e w)).
Proof.
  destruct (step_cases e w) as [->|H]; [apply move_none|].
  destruct e as [| |rx ry|nodeId clicker|].
  - destruct H as (Hrun & Hover & [[Hz ->]|[Hz [->| ->]]]).
    + unfold ended. rewrite broadcastGameOver_stopped_game.
      apply (move_end _ _ Hrun Hover Hz).
    + rewrite broadcastGameState_game. apply move_tick; assumption.
    + apply move_tick; assumption.
  - destruct H as (Hrun & Hover & ->). apply move_score; assumption.
  - destruct H as (Hrun & Hover & ->).
    destruct (Store.isHost (store w)) eqn:Hhost.
    + rewrite (spawnNode_host _ _ _ Hhost Hrun Hover).
      rewrite scheduleNextSpawn_running by assumption.
      apply (move_spawn true (game w) rx ry Hrun Hover eq_refl).
    + rewrite (spawnNode_not_host _ _ _ Hhost).
      rewrite scheduleNextSpawn_running by assumption.
      apply (move_reschedule false (game w) rx ry Hrun Hover eq_refl).
  - destruct H as (Hhost & Hrun & Hover & ->).
    rewrite broadcastGameState_game, Hhost.
    apply (move_click true (game w) nodeId clicker Hrun Hover eq_refl).
  - rewrite H, broadcastGameState_game. apply move_start.
Qed.

Lemma run_snoc es e w : run (es ++ [e]) w = step e (run es w).
Proof. unfold run. rewrite fold_left_app. reflexivity. Qed.

(** An invariant of the game variables kept by every move holds in every
    state of a started game. *)
Lemma run_game_invariant (P : Game.t -> Prop) :
  P freshGame ->
  (forall host g e g', game_move host g e g' -> P g -> P g') ->
  forall w es, P (game (run es (startGameHost w))).
Proof.
  intros Hfresh Hmove w es.
  induction es as [|e es IH] using rev_ind.
  - cbn. rewrite startGameHost_game. exact Hfresh.
  - rewrite run_snoc. eapply Hmove; [apply step_game_move|exact IH].
Qed.

Lemma spawnDelay_bounds g :
  0 <= Game.score g ->
  NODE_SPAWN_INTERVAL_MIN <= spawnDelay g <= NODE_SPAWN_INTERVAL_START.
Proof.
  unfold spawnDelay, NODE_SPAWN_INTERVAL_MIN, NODE_SPAWN_INTERVAL_START. lia.
Qed.

Lemma move_phase_ok host g e g' :
  game_move host g e g' -> phase_ok g -> phase_ok g'.
Proof.
  intros Hmove [Hscore Hphase].
  destruct Hmove as [e|Hr Ho Hz|Hr Ho Hz|Hr Ho|rx ry Hr Ho Hh|rx ry Hr Ho Hh
                    |nodeId clicker Hr Ho Hh|].
  - split; assumption.
  - split; [exact Hscore|]. cbn. auto.
  - split; [exact Hscore|]. rewrite Hr in Hphase.
    cbn. rewrite Hr. exact Hphase.
  - rewrite Hr in Hphase. split; [cbn; lia|]. cbn. rewrite Hr. exact Hphase.
  - rewrite Hr in Hphase. destruct Hphase as (H1 & H2 & H3 & _).
    split; [exact Hscore|]. cbn. rewrite Hr.
    repeat split; auto. exists (spawnDelay g).
    split; [reflexivity|]. apply spawnDelay_bounds. exact Hscore.
  - rewrite Hr in Hphase. destruct Hphase as (H1 & H2 & H3 & _).
    split; [exact Hscore|]. cbn. rewrite Hr.
    repeat split; auto. exists (spawnDelay g).
    split; [reflexivity|]. apply spawnDelay_bounds. exact Hscore.
  - split; [exact Hscore|]. rewrite Hr in Hphase.
    cbn. rewrite Hr. exact Hphase.
  - split; [cbn; lia|]. cbn. repeat split; auto.
    exists 3000. split; [reflexivity|].
    unfold NODE_SPAWN_INTERVAL_MIN, NODE_SPAWN_INTERVAL_START. lia.
Qed.

(** X18: in every state of a started game the score is not negative and the
    phase is coherent: either the game runs, is not over, and the three
    timers are armed (tick every 100, score every 1000, spawn after a delay
    between [NODE_SPAWN_INTERVAL_MIN] and [NODE_SPAWN_INTERVAL_START]), or it
    is over, not running, and all three timers are cleared. *)
Theorem timers_follow_phase (w : World.t) (es : list SimOp.t) :
  let g := game (run es (startGameHost w)) in
  0 <= Game.score g /\
  ((Game.gameRunning g = true /\ Game.gameOver g = false /\
    Game.gameLoopInterval g = Some 100 /\
    Game.scoreInterval g = Some 1000 /\
    exists d, Game.nodeSpawnInterval g = Some d /\
              NODE_SPAWN_INTERVAL_MIN <= d <= NODE_SPAWN_INTERVAL_START)
   \/
   (Game.gameRunning g = false /\ Game.gameOver g = true /\
    Game.gameLoopInterval g = None /\
    Game.scoreInterval g = None /\
    Game.nodeSpawnInterval g = None)).
Proof.
  intros g.
  assert (H : phase_ok g).
  { apply run_game_invariant.
    - split; [cbn; lia|]. cbn. repeat split; auto.
      exists 3000. split; [reflexivity|].
      unfold NODE_SPAWN_INTERVAL_MIN, NODE_SPAWN_INTERVAL_START. lia.
    - apply move_phase_ok. }
  destruct H as [Hscore Hphase]. split; [exact Hscore|].
  destruct (Game.gameRunning g); [left|right]; tauto.
Qed.

Lemma run_game_invariant_when (Q : SimOp.t -> Prop) (P : Game.t -> Prop) :
  P freshGame ->
  (forall host g e g', Q e -> game_move host g e g' -> P g -> P g') ->
  forall w es, Forall Q es -> P (game (run es (startGameHost w))).
Proof.
  intros Hfresh Hmove w es.
  induction es as [|e es IH] using rev_ind; intros HQ.
  - cbn. rewrite startGameHost_game. exact Hfresh.
  - apply Forall_app in HQ as [HQ He]. inversion He; subst.
    rewrite run_snoc. eapply Hmove; [eassumption|apply step_game_move|auto].
Qed.

Lemma tickNodes_In n g :
  In n (tickNodes g) ->
  exists m, In m (Game.nodes g) /\ expires m = false /\ n = tickNode m.
Proof.
  unfold tickNodes. rewrite in_map_iff. intros (m & <- & Hm).
  apply filter_In in Hm as [Hin Hlive]. apply negb_true_iff in Hlive.
  eauto.
Qed.

Lemma move_nodes_In host g e g' n :
  game_move host g e g' ->
  In n (Game.nodes g') ->
  In n (Game.nodes g) \/
  (exists m, In m (Game.nodes g) /\ expires m = false /\ n = tickNode m) \/
  (exists rx ry, e = SimOp.Spawn rx ry /\ n = spawned g rx ry).
Proof.
  intros Hmove Hin.
  destruct Hmove as [e|Hr Ho Hz|Hr Ho Hz|Hr Ho|rx ry Hr Ho Hh|rx ry Hr Ho Hh
                    |nodeId clicker Hr Ho Hh|]; cbn in Hin.
  - auto.
  - right. left. apply tickNodes_In. exact Hin.
  - right. left. apply tickNodes_In. exact Hin.
  - auto.
  - apply in_app_or in Hin as [Hin|[<-|[]]]; [auto|].
    right. right. eauto.
  - auto.
  - left. unfold withoutNode in Hin. apply filter_In in Hin. apply Hin.
  - contradiction.
Qed.

Lemma tickNode_ok m : node_ok m -> expires m = false -> node_ok (tickNode m).
Proof.
  intros (Ht & Hmax & k & Hk) Hlive. unfold expires in Hlive.
  apply Z.leb_gt in Hlive. unfold node_ok, tickNode.
  cbn [Node.timer Node.maxTimer Node.with_timer].
  unfold NODE_TIMER_DURATION in *.
  split; [lia|]. split; [exact Hmax|]. exists (k - 1). lia.
Qed.

(** X19: every node of a started game is live: its timer is positive, a
    whole number of ticks, and at most [NODE_TIMER_DURATION], which is also
    its [maxTimer]; so the fraction [timer / maxTimer] that sizes and colours
    the node lies in (0, 1]. *)
Theorem nodes_are_live (w : World.t) (es : list SimOp.t) :
  forall n,
    In n (Game.nodes (game (run es (startGameHost w)))) ->
    0 < Node.timer n <= NODE_TIMER_DURATION /\
    Node.maxTimer n = NODE_TIMER_DURATION /\
    exists k, Node.timer n = 100 * k.
Proof.
  apply (run_game_invariant (fun g => forall n, In n (Game.nodes g) ->
                                                node_ok n)).
  - intros n [].
  - intros host g e g' Hmove IH n Hin.
    destruct (move_nodes_In _ _ _ _ _ Hmove Hin)
      as [H|[(m & Hm & Hlive & ->)|(rx & ry & _ & ->)]].
    + auto.
    + apply tickNode_ok; auto.
    + unfold node_ok, spawned, NODE_TIMER_DURATION.
      cbn [Node.timer Node.maxTimer].
      split; [lia|]. split; [reflexivity|]. exists 50. reflexivity.
Qed.

Lemma nodes_are_live_witness :
  let n := nth 0 (Game.nodes (game (run [SimOp.Spawn 0.5 0.25; SimOp.Tick]
                                        (startGameHost ex_host))))
               (Node.mk 0 0 0 0 0) in
  0 < Node.timer n <= NODE_TIMER_DURATION /\
  Node.maxTimer n = NODE_TIMER_DURATION /\
  exists k, Node.timer n = 100 * k.
Proof.
  intros n.
  apply (nodes_are_live ex_host [SimOp.Spawn 0.5 0.25; SimOp.Tick] n).
  vm_compute. left. reflexivity.
Defined.

(** X20: when every [Math.random()] draw is in [0, 1), every node of a
    started game sits between 10 and 90 percent on both axes. *)
Theorem nodes_are_placed (w : World.t) (es : list SimOp.t) :
  Forall draws_ok es ->
  forall n,
    In n (Game.nodes (game (run es (startGameHost w)))) ->
    (10 <= Node.x n /\ Node.x n < 90 /\ 10 <= Node.y n /\ Node.y n < 90)%Q.
Proof.
  apply (run_game_invariant_when draws_ok
           (fun g => forall n, In n (Game.nodes g) -> placed n)).
  - intros n [].
  - intros host g e g' Hdraw Hmove IH n Hin.
    destruct (move_nodes_In _ _ _ _ _ Hmove Hin)
      as [H|[(m & Hm & Hlive & ->)|(rx & ry & -> & ->)]].
    + auto.
    + apply (IH m Hm).
    + destruct Hdraw as [[Hx0 Hx1] [Hy0 Hy1]].
      unfold placed, spawned. cbn [Node.x Node.y]. repeat split; lra.
Qed.

Lemma nodes_are_placed_witness :
  let n := nth 1 (Game.nodes (game (run [SimOp.Spawn 0.5 0.25; SimOp.Tick;
                                         SimOp.Spawn 0 0.99]
                                        (startGameHost ex_host))))
               (Node.mk 0 0 0 0 0) in
  (10 <= Node.x n /\ Node.x n < 90 /\ 10 <= Node.y n /\ Node.y n < 90)%Q.
Proof.
  intros n.
  apply (nodes_are_placed ex_host [SimOp.Spawn 0.5 0.25; SimOp.Tick;
                                   SimOp.Spawn 0 0.99]).
  - repeat constructor; cbn; lra.
  - vm_compute. right. left. reflexivity.
Defined.

Lemma move_counters host g e g' :
  game_move host g e g' -> e <> SimOp.Start ->
  Game.score g <= Game.score g' <= Game.score g + Z.b2z (is_scoreTick e) /\
  Game.nextNodeId g <= Game.nextNodeId g'
    <= Game.nextNodeId g + Z.b2z (is_spawn e).
Proof.
  intros Hmove Hne.
  destruct Hmove as [e|Hr Ho Hz|Hr Ho Hz|Hr Ho|rx ry Hr Ho Hh|rx ry Hr Ho Hh
                    |nodeId clicker Hr Ho Hh|]; cbn; try lia.
  - destruct (is_scoreTick e), (is_spawn e); cbn; lia.
  - contradiction.
Qed.

(** X21: until the game is started again, the score and the next node id
    never go down; the score grows by at most one per score tick and the next
    node id by at most one per spawn timeout, whatever else happens. *)
Theorem score_and_ids_only_grow (es : list SimOp.t) :
  forall w,
    ~ In SimOp.Start es ->
    let g := game w in
    let g' := game (run es w) in
    Game.score g <= Game.score g' /\
    Game.score g' <= Game.score g
                     + Z.of_nat (List.length (filter is_scoreTick es)) /\
    Game.nextNodeId g <= Game.nextNodeId g' /\
    Game.nextNodeId g' <= Game.nextNodeId g
                          + Z.of_nat (List.length (filter is_spawn es)).
Proof.
  induction es as [|e es IH]; intros w Hno; cbn zeta.
  - cbn. lia.
  - assert (Hne : e <> SimOp.Start) by (intros ->; apply Hno; left; reflexivity).
    assert (Hno' : ~ In SimOp.Start es) by (intros H; apply Hno; right; exact H).
    pose proof (move_counters _ _ _ _ (step_game_move e w) Hne) as [Hs Hi].
    specialize (IH (step e w) Hno'). cbn zeta in IH.
    change (run (e :: es) w) with (run es (step e w)).
    cbn [filter].
    destruct (is_scoreTick e), (is_spawn e); cbn [List.length Z.b2z] in *; lia.
Qed.

Lemma score_and_ids_only_grow_witness :
  Game.score (game ex_host) <=
  Game.score (game (run [SimOp.ScoreTick; SimOp.Tick; SimOp.Spawn 0.5 0.5]
                        ex_host)).
Proof.
  apply (score_and_ids_only_grow
           [SimOp.ScoreTick; SimOp.Tick; SimOp.Spawn 0.5 0.5] ex_host).
  intros [H|[H|[H|[]]]]; discriminate H.
Defined.

(** ** Playing without being the host *)






(** ** When a tick broadcasts *)





(** ** Starting, and losing the connection *)



(** X25: the reaction to a lost connection.  With status ["disconnected"] or
    ["error"], a game that is running or over is stopped: timers cleared, not
    running, over, while health, score, nodes, store and wire are kept;
    running the reaction again changes nothing; with any other status, or
    before any game, it does nothing. *)
Theorem connectionLost_stops_game (w : World.t) :
  let w' := connectionLost w in
  let lost := Store.connectionStatus (store w) = "disconnected" \/
              Store.connectionStatus (store w) = "error" in
  let played := Game.gameRunning (game w) = true \/
                Game.gameOver (game w) = true in
  store w' = store w /\ wire w' = wire w /\
  Game.pulseHealth (game w') = Game.pulseHealth (game w) /\
  Game.score (game w') = Game.score (game w) /\
  Game.nodes (game w') = Game.nodes (game w) /\
  connectionLost w' = w' /\
  (lost -> played ->
   Game.gameRunning (game w') = false /\ Game.gameOver (game w') = true /\
   Game.gameLoopInterval (game w') = None /\
   Game.scoreInterval (game w') = None /\
   Game.nodeSpawnInterval (game w') = None) /\
  (~ lost \/ ~ played -> w' = w).
Proof.
  cbv zeta. unfold connectionLost.
  destruct (String.eqb (Store.connectionStatus (store w)) "disconnected"
            || String.eqb (Store.connectionStatus (store w)) "error") eqn:Hs.
  - destruct (Game.gameRunning (game w) || Game.gameOver (game w)) eqn:Hg.
    + cbn. rewrite Hs. cbn.
      do 6 (split; [reflexivity|]). split.
      * intros _ _. repeat split; reflexivity.
      * intros [Hn|Hn]; exfalso; apply Hn.
        -- apply orb_true_iff in Hs as [H|H]; apply String.eqb_eq in H; auto.
        -- apply orb_true_iff in Hg. exact Hg.
    + rewrite Hs, Hg. do 6 (split; [reflexivity|]). split; [|reflexivity].
      intros _ Hp. apply orb_true_iff in Hp. congruence.
  - rewrite Hs. do 6 (split; [reflexivity|]). split; [|reflexivity].
    intros [H|H] _; apply String.eqb_eq in H; rewrite H in Hs;
      [discriminate Hs|].
    rewrite orb_true_r in Hs. discriminate Hs.
Qed.

(** ** Pulse colour *)

(** X26: the pulse is lime above 70 percent of [MAX_HEALTH], orange above
    40 percent and up to 70, and red at 40 percent or below. *)
Theorem getPulseColor_thresholds (health : Q) :
  ((70 < health)%Q -> getPulseColor health = "lime") /\
  ((40 < health)%Q -> (health <= 70)%Q -> getPulseColor health = "orange") /\
  ((health <= 40)%Q -> getPulseColor health = "red").
Proof.
  unfold getPulseColor, MAX_HEALTH.
  assert (H7 : Qle_bool (health / 100) 0.7 = true <-> (health <= 70)%Q).
  { rewrite Qle_bool_iff. split; intros H.
    - apply (Qmult_le_r _ _ (/ 100)%Q); [reflexivity|].
      unfold Qdiv in H. eapply Qle_trans; [exact H|]. apply Qle_lteq. right.
      reflexivity.
    - unfold Qdiv. apply (Qmult_le_r _ _ (/ 100)%Q) in H; [|reflexivity].
      eapply Qle_trans; [exact H|]. apply Qle_lteq. right. reflexivity. }
  assert (H4 : Qle_bool (health / 100) 0.4 = true <-> (health <= 40)%Q).
  { rewrite Qle_bool_iff. split; intros H.
    - apply (Qmult_le_r _ _ (/ 100)%Q); [reflexivity|].
      unfold Qdiv in H. eapply Qle_trans; [exact H|]. apply Qle_lteq. right.
      reflexivity.
    - unfold Qdiv. apply (Qmult_le_r _ _ (/ 100)%Q) in H; [|reflexivity].
      eapply Qle_trans; [exact H|]. apply Qle_lteq. right. reflexivity. }
  split; [|split].
  - intros Hgt.
    assert (E : Qle_bool (health / 100) 0.7 = false).
    { apply not_true_is_false. intros E. apply H7 in E. lra. }
    rewrite E. reflexivity.
  - intros Hgt Hle. apply H7 in Hle. rewrite Hle. cbn [negb].
    assert (E : Qle_bool (health / 100) 0.4 = false).
    { apply not_true_is_false. intros E. apply H4 in E. lra. }
    rewrite E. reflexivity.
  - intros Hle.
    assert (H70 : (health <= 70)%Q) by lra.
    apply H7 in H70. apply H4 in Hle. rewrite H70, Hle. reflexivity.
Qed.

Lemma getPulseColor_thresholds_witness :
  getPulseColor 100 = "lime" /\ getPulseColor 70 = "orange" /\
  getPulseColor 40 = "red".
Proof.
  split; [|split].
  - apply (getPulseColor_thresholds 100). reflexivity.
  - apply (getPulseColor_thresholds 70); [reflexivity|]. apply Qle_refl.
  - apply (getPulseColor_thresholds 40). apply Qle_refl.
Defined.

(** ** The connection store across all events *)









(** ** Snapshots on a client *)

(** X28: a client's mirrored game is only ever changed by a
    [gameStateUpdate] whose sender is the peer of the bound host connection;
    with no host connection, or from any other sender, the snapshot is
    dropped. *)
Theorem snapshot_only_from_bound_host (state : Snapshot.t) (sender : string)
    (w : World.t) :
  Store.isHost (store w) = false ->
  handleGameData (gameStateUpdate state) sender w <> w ->
  exists hostConn,
    Store.hostConnection (store w) = Some hostConn /\
    Conn.peer hostConn = sender.
Proof.
  intros Hhost Hchanged. cbn [handleGameData] in Hchanged.
  rewrite Hhost in Hchanged. cbn [negb] in Hchanged.
  destruct (Store.hostConnection (store w)) as [hc|];
    [|exfalso; apply Hchanged; reflexivity].
  destruct (String.eqb sender (Conn.peer hc)) eqn:E;
    [|exfalso; apply Hchanged; reflexivity].
  apply String.eqb_eq in E. exists hc. auto.
Qed.

Lemma snapshot_only_from_bound_host_witness :
  exists hostConn,
    Store.hostConnection (store ex_client) = Some hostConn /\
    Conn.peer hostConn = "host-b".
Proof.
  apply (snapshot_only_from_bound_host (Snapshot.mk 0 9 [] false true)
           "host-b" ex_client eq_refl).
  intros H. apply (f_equal (fun w => Game.score (game w))) in H.
  discriminate H.
Defined.

(** ** Node ids *)

(** X29: in every state of a started game the node ids are pairwise
    distinct and all below [nextNodeId], the next id to hand out. *)
Theorem node_ids_are_unique (w : World.t) (es : list SimOp.t) :
  let g := game (run es (startGameHost w)) in
  NoDup (map Node.id (Game.nodes g)) /\
  Forall (fun i => i < Game.nextNodeId g) (map Node.id (Game.nodes g)).
Proof.
  apply (run_ids_ok es (startGameHost w)).
  rewrite startGameHost_game. split; constructor.
Qed.

(** ** The game ends *)






